(** * mongoose-paranoia: the soft-delete plugin of [src/index.ts]

    A shallow embedding of the plugin function [Paranoia] and of the part of
    the Mongoose/MongoDB client it drives, followed by the properties of the
    plugin's delete rewriting, read filtering, query helpers and restore
    methods.

    Layout:
    - [value], [obj]: JavaScript values and plain objects (insertion-ordered
      property lists, as [Object.keys] and the spread operator see them);
    - [opts], [resolve]: the options record and the merge with its defaults;
    - [Query], [Aggregate]: the operation objects the helpers and the
      middleware mutate, with Mongoose's [where] (condition merge);
    - the plugin: schema fields, the four delete statics, the query helpers,
      [queryMiddleware], the aggregate hook, the two restore methods;
    - [Store]: a model of the document store the operations run against
      (matching, [$set], update and find-and-update execution);
    - the theorems. *)

From Stdlib Require Import String List ZArith Bool Lia.
Import ListNotations.
Open Scope string_scope.
Open Scope list_scope.

Set Warnings "-register-all".

(* ------------------------------------------------------------------ *)
(** * JavaScript values and objects *)

(** Dates are epoch milliseconds.  A plain object is the list of its own
    properties in insertion order. *)
Inductive value : Type :=
| VUndef
| VNull
| VBool (b : bool)
| VNum (n : Z)
| VStr (s : string)
| VDate (ms : Z)
| VArr (vs : list value)
| VObj (kvs : list (string * value)).

Definition obj : Type := list (string * value).

Fixpoint obj_lookup (o : obj) (k : string) : option value :=
  match o with
  | [] => None
  | (k', v) :: r => if String.eqb k' k then Some v else obj_lookup r k
  end.

(** [o[k]]: [undefined] when [o] has no such property. *)
Definition obj_get (o : obj) (k : string) : value :=
  match obj_lookup o k with
  | Some v => v
  | None => VUndef
  end.

(** [k in o] for own properties. *)
Definition obj_has (o : obj) (k : string) : bool :=
  match obj_lookup o k with
  | Some _ => true
  | None => false
  end.

(** [o[k] = v]: an existing property keeps its position, a new one is
    appended. *)
Fixpoint obj_set (o : obj) (k : string) (v : value) : obj :=
  match o with
  | [] => [(k, v)]
  | (k', v') :: r =>
      if String.eqb k' k then (k', v) :: r else (k', v') :: obj_set r k v
  end.

(** [{ ...a, ...b }] and object literals [{ k1: v1, ..., kn: vn }]: later
    properties win. *)
Definition obj_assign (a b : obj) : obj :=
  fold_left (fun acc kv => obj_set acc (fst kv) (snd kv)) b a.

Definition obj_literal (kvs : list (string * value)) : obj :=
  obj_assign [] kvs.

(** The own property [v.k] of a plain object, [undefined] on any other
    value: the reads [stage?.$match] and [update.$set], whose names no
    built-in prototype carries. *)
Definition prop (v : value) (k : string) : value :=
  match v with
  | VObj o => obj_get o k
  | _ => VUndef
  end.

Definition as_obj (v : value) : obj :=
  match v with
  | VObj o => o
  | _ => []
  end.

Definition is_undefined (v : value) : bool :=
  match v with
  | VUndef => true
  | _ => false
  end.

(** [v == null]: [null] or [undefined]. *)
Definition is_nullish (v : value) : bool :=
  match v with
  | VUndef | VNull => true
  | _ => false
  end.

(** The property names of [Object.prototype], which every plain object
    inherits. *)
Definition proto_members : list string :=
  ["constructor"; "__defineGetter__"; "__defineSetter__"; "hasOwnProperty";
   "__lookupGetter__"; "__lookupSetter__"; "isPrototypeOf";
   "propertyIsEnumerable"; "toString"; "valueOf"; "__proto__";
   "toLocaleString"].

Definition inherited (k : string) : bool :=
  existsb (String.eqb k) proto_members.

(** [o[k] === undefined] on a plain object: an own property decides, and
    without one the read reaches [Object.prototype], whose members are not
    [undefined]. *)
Definition reads_undefined (o : obj) (k : string) : bool :=
  match obj_lookup o k with
  | Some v => is_undefined v
  | None => negb (inherited k)
  end.

(** [v?.[k] !== undefined] on an arbitrary value: [false] on [undefined] and
    [null]; on a plain object the read above; on a primitive, an array or a
    date the members every value inherits from [Object.prototype] (the
    members of its own kind, such as [length], are not modelled: a [$match]
    stage holds a document). *)
Definition has_member (v : value) (k : string) : bool :=
  match v with
  | VUndef | VNull => false
  | VObj o => negb (reads_undefined o k)
  | _ => inherited k
  end.

(** Structural equality of values. *)
Fixpoint value_eqb (a b : value) {struct a} : bool :=
  match a, b with
  | VUndef, VUndef => true
  | VNull, VNull => true
  | VBool x, VBool y => Bool.eqb x y
  | VNum x, VNum y => Z.eqb x y
  | VStr x, VStr y => String.eqb x y
  | VDate x, VDate y => Z.eqb x y
  | VArr xs, VArr ys =>
      (fix go (xs ys : list value) {struct xs} : bool :=
         match xs, ys with
         | [], [] => true
         | x :: xs', y :: ys' => value_eqb x y && go xs' ys'
         | _, _ => false
         end) xs ys
  | VObj xs, VObj ys =>
      (fix go (xs ys : list (string * value)) {struct xs} : bool :=
         match xs, ys with
         | [], [] => true
         | (k, x) :: xs', (k', y) :: ys' =>
             String.eqb k k' && value_eqb x y && go xs' ys'
         | _, _ => false
         end) xs ys
  | _, _ => false
  end.

(** A thrown [Error] with its message, or a normal return. *)
Inductive outcome (A : Type) : Type :=
| Ok (a : A)
| Throw (msg : string).

Arguments Ok {A} a.
Arguments Throw {A} msg.

(* ------------------------------------------------------------------ *)
(** * Options ([ParanoiaOptions] and the resolved [opts]) *)

Inductive ActiveArchive : Type := Scope | Default | All.

Definition ActiveArchive_eqb (a b : ActiveArchive) : bool :=
  match a, b with
  | Scope, Scope | Default, Default | All, All => true
  | _, _ => false
  end.

(** A configured field name: a string, or [undefined] when the caller passes
    the option explicitly as [undefined] (the spread copies it over the
    default). *)
Definition name : Type := option string.

(** Truthiness of a field name, as [!opts.deletedField] tests it. *)
Definition name_truthy (n : name) : bool :=
  match n with
  | Some s => negb (String.eqb s "")
  | None => false
  end.

(** The property key of a computed key [[n]]: [undefined] becomes the string
    ["undefined"]. *)
Definition key (n : name) : string :=
  match n with
  | Some s => s
  | None => "undefined"
  end.

(** The caller's options: [None] is an option that is not given. *)
Record ParanoiaOptions : Type := {
  o_deletedAt : option bool;
  o_deletedBy : option bool;
  o_deletedByType : option string;
  o_activeArchive : option ActiveArchive;
  o_deletedField : option name;
  o_deletedAtField : option name;
  o_deletedByField : option name
}.

Record opts : Type := {
  deletedAt : bool;
  deletedBy : bool;
  deletedByType : string;
  activeArchive : ActiveArchive;
  deletedField : name;
  deletedAtField : name;
  deletedByField : name
}.

Definition or_default {A : Type} (d : A) (o : option A) : A :=
  match o with
  | Some a => a
  | None => d
  end.

(** [const opts = { deletedAt: true, ..., ...options }]. *)
Definition resolve (options : ParanoiaOptions) : opts := {|
  deletedAt := or_default true (o_deletedAt options);
  deletedBy := or_default false (o_deletedBy options);
  deletedByType := or_default "ObjectId" (o_deletedByType options);
  activeArchive := or_default Default (o_activeArchive options);
  deletedField := or_default (Some "deleted") (o_deletedField options);
  deletedAtField := or_default (Some "deletedAt") (o_deletedAtField options);
  deletedByField := or_default (Some "deletedBy") (o_deletedByField options)
|}.

Definition no_options : ParanoiaOptions :=
  {| o_deletedAt := None; o_deletedBy := None; o_deletedByType := None;
     o_activeArchive := None; o_deletedField := None;
     o_deletedAtField := None; o_deletedByField := None |}.

Definition default_opts : opts := resolve no_options.

(** The property keys of the three logical fields. *)
Definition flagKey (o : opts) : string := key (deletedField o).
Definition atKey (o : opts) : string := key (deletedAtField o).
Definition byKey (o : opts) : string := key (deletedByField o).

(* ------------------------------------------------------------------ *)
(** * Schema fields ([schema.add]) *)

Inductive SchemaType : Type := TBoolean | TDate | TObjectId | TString.

Record SchemaField : Type := {
  f_type : SchemaType;
  f_default : value;      (* [VUndef]: no default *)
  f_index : bool;
  f_ref : option string
}.

Definition Schema : Type := list (string * SchemaField).

(** [schema.add({ [k]: fld })]: a path of the same name is replaced. *)
Fixpoint schema_add (s : Schema) (k : string) (fld : SchemaField) : Schema :=
  match s with
  | [] => [(k, fld)]
  | (k', f') :: r =>
      if String.eqb k' k then (k', fld) :: r else (k', f') :: schema_add r k fld
  end.

(** The declaration of a path: the first one of that name. *)
Fixpoint schema_lookup (s : Schema) (k : string) : option SchemaField :=
  match s with
  | [] => None
  | (k', f) :: r => if String.eqb k' k then Some f else schema_lookup r k
  end.

Definition deletedByFieldType (o : opts) : SchemaType * option string :=
  if String.eqb (deletedByType o) "ObjectId"
  then (TObjectId, Some "User")
  else (TString, None).

(** The three [schema.add] calls of the plugin. *)
Definition add_fields (o : opts) (s : Schema) : Schema :=
  let s1 := schema_add s (flagKey o)
              {| f_type := TBoolean; f_default := VBool false;
                 f_index := true; f_ref := None |} in
  let s2 := if deletedAt o
            then schema_add s1 (atKey o)
                   {| f_type := TDate; f_default := VNull;
                      f_index := false; f_ref := None |}
            else s1 in
  if deletedBy o
  then schema_add s2 (byKey o)
         {| f_type := fst (deletedByFieldType o); f_default := VNull;
            f_index := false; f_ref := snd (deletedByFieldType o) |}
  else s2.

(** Document creation as the client performs it.  A supplied value that is
    neither [null] nor [undefined] is cast to the type of its path; then
    every schema path with a default that the data leaves [undefined]
    receives its default. *)







(** The plugin function: it resolves the options and augments the schema; its
    body has no [throw].  The statics, helpers and hooks it installs close
    over the resolved [opts] and are the definitions below, which take [opts]
    as their first argument. *)
Definition Paranoia (schema : Schema) (options : ParanoiaOptions)
  : outcome (Schema * opts) :=
  let o := resolve options in
  Ok (add_fields o schema, o).

(* ------------------------------------------------------------------ *)
(** * Queries and aggregates *)

Inductive Op : Type :=
| find | findOne | findOneAndUpdate | countDocuments
| updateOne | updateMany.

Record Query : Type := {
  op : Op;
  _conditions : obj;
  _update : value;
  options : obj;
  _includeDeleted : bool
}.

Definition mkQuery (o : Op) (filter : obj) (update : value) (options : obj)
  : Query :=
  {| op := o; _conditions := filter; _update := update; options := options;
     _includeDeleted := false |}.

(** Mongoose's special property names, which its merge never copies. *)
Definition special_properties : list string :=
  ["__proto__"; "constructor"; "prototype"].

(** The keys Mongoose's [utils.merge] passes over when [where] calls it: the
    special property names, and every key for which [options.omit[key]] is
    truthy; [where] passes [omit = {}], so these are the members of
    [Object.prototype]. *)
Definition merge_skips (k : string) : bool :=
  inherited k || existsb (String.eqb k) special_properties.

(** What the condition on one path becomes when [where] merges [fv] into a
    filter that already holds the non-null condition [tv] on that path
    (Mongoose's [utils.merge] with [overwrite]): a plain object is merged
    property by property into the existing one (into [{}] when the existing
    condition is not a plain object), anything else overwrites. *)
Fixpoint merge_cond (fv tv : value) {struct fv} : value :=
  match fv with
  | VObj fo =>
      VObj ((fix go (fo : list (string * value)) (t : obj) {struct fo} : obj :=
               match fo with
               | [] => t
               | (k, v) :: r =>
                   if merge_skips k then go r t
                   else go r (obj_set t k
                                (if is_nullish (obj_get t k) then v
                                 else merge_cond v (obj_get t k)))
               end) fo (as_obj tv))
  | _ => fv
  end.

(** One property of the source merged into the conditions; past the skip the
    key is no member of [Object.prototype], and [to[key]] is the own
    property. *)
Definition merge_entry (t : obj) (kv : string * value) : obj :=
  if merge_skips (fst kv) then t
  else obj_set t (fst kv)
         (if is_nullish (obj_get t (fst kv)) then snd kv
          else merge_cond (snd kv) (obj_get t (fst kv))).

(** [query.where(source)] with an object argument: the properties of
    [source] are merged into the query's conditions. *)
Definition where_ (q : Query) (source : obj) : Query :=
  {| op := op q;
     _conditions := fold_left merge_entry source (_conditions q);
     _update := _update q;
     options := options q;
     _includeDeleted := _includeDeleted q |}.

Definition getFilter (q : Query) : obj := _conditions q.

Record Aggregate : Type := {
  _pipeline : list value;
  agg_includeDeleted : bool
}.

(** The model methods the statics delegate to. *)
Definition Model_find (filter : obj) : Query := mkQuery find filter VUndef [].
Definition Model_findOne (filter : obj) : Query := mkQuery findOne filter VUndef [].
Definition Model_countDocuments (filter : obj) : Query :=
  mkQuery countDocuments filter VUndef [].
Definition Model_updateOne (filter : obj) (update : value) (options : obj) : Query :=
  mkQuery updateOne filter update options.
Definition Model_updateMany (filter : obj) (update : value) (options : obj) : Query :=
  mkQuery updateMany filter update options.
Definition Model_findOneAndUpdate (filter : obj) (update : value) (options : obj)
  : Query :=
  mkQuery findOneAndUpdate filter update options.
(** [findByIdAndUpdate(id, ...)] is [findOneAndUpdate({ _id: id }, ...)]. *)
Definition Model_findByIdAndUpdate (id : value) (update : value) (options : obj)
  : Query :=
  Model_findOneAndUpdate [("_id", id)] update options.
Definition Model_aggregate (pipeline : list value) : Aggregate :=
  {| _pipeline := pipeline; agg_includeDeleted := false |}.

(* ------------------------------------------------------------------ *)
(** * The plugin *)

(** ** Delete statics *)

(** [{ [deletedField]: true, ...(deletedAt && { [deletedAtField]: new Date() }) }];
    [now] is the value of [new Date()]. *)
Definition soft_delete_update (o : opts) (now : Z) : obj :=
  obj_literal
    ((flagKey o, VBool true)
       :: (if deletedAt o then [(atKey o, VDate now)] else [])).

Definition set_doc (update : obj) : value := VObj [("$set", VObj update)].

Definition new_false (options : obj) : obj := obj_set options "new" (VBool false).

Definition deleteOne (o : opts) (now : Z) (filter : obj) (options : obj) : Query :=
  Model_updateOne filter (set_doc (soft_delete_update o now)) options.

Definition deleteMany (o : opts) (now : Z) (filter : obj) (options : obj) : Query :=
  Model_updateMany filter (set_doc (soft_delete_update o now)) options.

Definition findOneAndDelete (o : opts) (now : Z) (filter : obj) (options : obj)
  : Query :=
  Model_findOneAndUpdate filter (set_doc (soft_delete_update o now))
    (new_false options).

Definition findByIdAndDelete (o : opts) (now : Z) (id : value) (options : obj)
  : Query :=
  Model_findByIdAndUpdate id (set_doc (soft_delete_update o now))
    (new_false options).

(** ** Query helpers *)

Definition ne_true : value := VObj [("$ne", VBool true)].

Definition active (o : opts) (q : Query) : outcome Query :=
  if negb (name_truthy (deletedField o))
  then Throw "deletedField is required for active query helper"
  else Ok (where_ q [(flagKey o, ne_true)]).

Definition deleted (o : opts) (q : Query) : outcome Query :=
  if negb (name_truthy (deletedField o))
  then Throw "deletedField is required for deleted query helper"
  else Ok (where_ q [(flagKey o, VBool true)]).

Definition withDeleted (q : Query) : Query :=
  {| op := op q;
     _conditions := _conditions q;
     _update := _update q;
     options := options q;
     _includeDeleted := true |}.

(** ** Read middleware *)

Definition queryMiddleware (o : opts) (q : Query) : Query :=
  if _includeDeleted q then q
  else if negb (name_truthy (deletedField o)) then q
  else if reads_undefined (getFilter q) (flagKey o)
       then where_ q [(flagKey o, ne_true)]
       else q.

(** The operations the middleware is registered on with [schema.pre]. *)
Definition hooked (p : Op) : bool :=
  match p with
  | find | findOne | findOneAndUpdate | countDocuments => true
  | _ => false
  end.

(** The plugin's pre-hooks of an operation, run before it executes. *)
Definition pre (o : opts) (q : Query) : Query :=
  if ActiveArchive_eqb (activeArchive o) Default && hooked (op q)
  then queryMiddleware o q
  else q.

Definition match_stage (o : opts) : value :=
  VObj [("$match", VObj [(flagKey o, ne_true)])].

Definition hasDeletedFilter (o : opts) (pipeline : list value) : bool :=
  has_member (prop (nth 0 pipeline VUndef) "$match") (flagKey o).

Definition aggregateMiddleware (o : opts) (a : Aggregate) : Aggregate :=
  if agg_includeDeleted a then a
  else if negb (name_truthy (deletedField o)) then a
  else if negb (hasDeletedFilter o (_pipeline a))
       then {| _pipeline := match_stage o :: _pipeline a;
               agg_includeDeleted := agg_includeDeleted a |}
       else a.

Definition pre_aggregate (o : opts) (a : Aggregate) : Aggregate :=
  if ActiveArchive_eqb (activeArchive o) Default
  then aggregateMiddleware o a
  else a.

(** ** Restore *)

(** [{ [deletedField]: false }] followed by the two conditional
    assignments. *)
Definition restore_update (o : opts) : obj :=
  let u1 := obj_literal [(flagKey o, VBool false)] in
  let u2 := if deletedAt o then obj_set u1 (atKey o) VNull else u1 in
  if deletedBy o then obj_set u2 (byKey o) VNull else u2.


(** The static: [updateMany({ ...filter, [deletedField]: true }, { $set })]. *)
Definition restore (o : opts) (filter : obj) : Query :=
  Model_updateMany (obj_set filter (flagKey o) (VBool true))
    (set_doc (restore_update o)) [].

(* ------------------------------------------------------------------ *)
(** * The document store *)

(** The store is the external collaborator the plugin delegates to.  This
    module models the part of it the plugin's operations exercise: a
    collection as the list of its documents, filters as conjunctions of
    per-path conditions (a literal, or an operator object over [$eq], [$ne],
    [$in], [$nin], [$exists]), [$set] updates, and the execution of the six
    operations.  Logical operators ([$and], [$or], ...) and the remaining
    comparison operators are outside the model: a condition using one matches
    no document. *)
Module Store.

Definition store : Type := list obj.

Definition truthy (v : value) : bool :=
  match v with
  | VUndef | VNull => false
  | VBool b => b
  | VNum n => negb (Z.eqb n 0)
  | VStr s => negb (String.eqb s "")
  | _ => true
  end.

(** Equality condition: [null] also matches a missing field. *)
Definition eq_cond (c v : value) : bool :=
  if is_nullish c then is_nullish v else value_eqb c v.

Definition op_sat (v : value) (o : string) (arg : value) : bool :=
  if String.eqb o "$eq" then eq_cond arg v
  else if String.eqb o "$ne" then negb (eq_cond arg v)
  else if String.eqb o "$in" then
    match arg with
    | VArr l => existsb (fun a => eq_cond a v) l
    | _ => false
    end
  else if String.eqb o "$nin" then
    match arg with
    | VArr l => negb (existsb (fun a => eq_cond a v) l)
    | _ => false
    end
  else if String.eqb o "$exists" then Bool.eqb (truthy arg) (negb (is_undefined v))
  else false.

(** An object whose first key starts with [$] is an operator expression. *)
Definition is_operator_obj (o : obj) : bool :=
  match o with
  | (k, _) :: _ => String.prefix "$" k
  | [] => false
  end.

(** Does the field value [v] satisfy the condition [c]? *)
Definition cond_sat (c v : value) : bool :=
  match c with
  | VObj o =>
      if is_operator_obj o
      then forallb (fun kv => op_sat v (fst kv) (snd kv)) o
      else value_eqb c v
  | _ => eq_cond c v
  end.

Definition matches (filter : obj) (d : obj) : bool :=
  forallb (fun kv => cond_sat (snd kv) (obj_get d (fst kv))) filter.

(** [{ $set: u }] applied to a document. *)
Definition apply_set (u : obj) (d : obj) : obj := obj_assign d u.

Definition set_part (update : value) : obj := as_obj (prop update "$set").

(** Update the first matching document; also return it as it was. *)
Fixpoint update_first (filter u : obj) (db : store) : option obj * store :=
  match db with
  | [] => (None, [])
  | d :: r =>
      if matches filter d then (Some d, apply_set u d :: r)
      else let '(x, r') := update_first filter u r in (x, d :: r')
  end.

Definition update_all (filter u : obj) (db : store) : store :=
  map (fun d => if matches filter d then apply_set u d else d) db.

Definition changed (u : obj) (d : obj) : bool :=
  negb (value_eqb (VObj (apply_set u d)) (VObj d)).

(** What the store answers.  [DocResult] and [DocsResult] hold the stored
    documents the operation selects, as the store hands them over; the
    client then wraps each one in a document of the model, which reads the
    schema defaults on the paths the stored document lacks. *)
Inductive result : Type :=
| UpdateWriteOpResult (matchedCount modifiedCount : nat)
| DocResult (d : value)             (* a document or [null] *)
| DocsResult (ds : list obj)
| CountResult (n : nat).

Definition doc_or_null (d : option obj) : value :=
  match d with
  | Some x => VObj x
  | None => VNull
  end.

(** Execution of an operation object against the collection.  Of the
    options only [new] is interpreted; an [upsert] that inserts a document
    when nothing matches is outside the model. *)
Definition exec_op (q : Query) (db : store) : result * store :=
  let c := _conditions q in
  let u := set_part (_update q) in
  match op q with
  | find => (DocsResult (filter (matches c) db), db)
  | findOne => (DocResult (doc_or_null (List.find (matches c) db)), db)
  | countDocuments => (CountResult (length (filter (matches c) db)), db)
  | updateOne =>
      let '(x, db') := update_first c u db in
      match x with
      | Some d => (UpdateWriteOpResult 1 (if changed u d then 1 else 0), db')
      | None => (UpdateWriteOpResult 0 0, db')
      end
  | updateMany =>
      let hit := filter (matches c) db in
      (UpdateWriteOpResult (length hit) (length (filter (changed u) hit)),
       update_all c u db)
  | findOneAndUpdate =>
      let '(x, db') := update_first c u db in
      let r := if truthy (obj_get (options q) "new")
               then option_map (apply_set u) x
               else x in
      (DocResult (doc_or_null r), db')
  end.

(** An operation as the caller awaits it: the plugin's pre-hooks run, then
    the operation executes. *)
Definition exec (o : opts) (q : Query) (db : store) : result * store :=
  exec_op (pre o q) db.

End Store.

(** The delete-class calls a caller can make. *)
Inductive DeleteCall : Type :=
| CallDeleteOne (filter options : obj)
| CallDeleteMany (filter options : obj)
| CallFindOneAndDelete (filter options : obj)
| CallFindByIdAndDelete (id : value) (options : obj).

Definition delete_query (o : opts) (now : Z) (c : DeleteCall) : Query :=
  match c with
  | CallDeleteOne f os => deleteOne o now f os
  | CallDeleteMany f os => deleteMany o now f os
  | CallFindOneAndDelete f os => findOneAndDelete o now f os
  | CallFindByIdAndDelete id os => findByIdAndDelete o now id os
  end.

(** The filter a delete-class call hands over. *)
Definition call_filter (c : DeleteCall) : obj :=
  match c with
  | CallDeleteOne f _ | CallDeleteMany f _ | CallFindOneAndDelete f _ => f
  | CallFindByIdAndDelete id _ => [("_id", id)]
  end.

Definition is_find_and_delete (c : DeleteCall) : bool :=
  match c with
  | CallFindOneAndDelete _ _ | CallFindByIdAndDelete _ _ => true
  | _ => false
  end.

(* ------------------------------------------------------------------ *)
(** * Sample data *)

Definition user_schema : Schema :=
  [("name", {| f_type := TString; f_default := VUndef; f_index := false; f_ref := None |});
   ("email", {| f_type := TString; f_default := VUndef; f_index := false; f_ref := None |})].

Definition active_user : obj :=
  [("_id", VNum 1); ("name", VStr "Active"); ("deleted", VBool false);
   ("deletedAt", VNull)].

Definition deleted_user : obj :=
  [("_id", VNum 2); ("name", VStr "Deleted"); ("deleted", VBool true);
   ("deletedAt", VDate 1000)].

Definition users : Store.store := [active_user; deleted_user].

(** A configuration that passes [deletedField: undefined] explicitly: the
    resolved name is falsy and the computed property key is ["undefined"]. *)
Definition undefined_flag_options : ParanoiaOptions :=
  {| o_deletedAt := None; o_deletedBy := None; o_deletedByType := None;
     o_activeArchive := None; o_deletedField := Some None;
     o_deletedAtField := None; o_deletedByField := None |}.

Definition undefined_flag_opts : opts := resolve undefined_flag_options.

(** [deletedField: ""]. *)
Definition empty_flag_options : ParanoiaOptions :=
  {| o_deletedAt := None; o_deletedBy := None; o_deletedByType := None;
     o_activeArchive := None; o_deletedField := Some (Some "");
     o_deletedAtField := None; o_deletedByField := None |}.

(** Policy [Scope], the other options at their defaults. *)
Definition scope_opts : opts :=
  resolve {| o_deletedAt := None; o_deletedBy := None; o_deletedByType := None;
             o_activeArchive := Some Scope; o_deletedField := None;
             o_deletedAtField := None; o_deletedByField := None |}.

(** A document stored under the configuration whose flag key is
    ["undefined"], already soft-deleted. *)
Definition deleted_record : obj :=
  [("_id", VNum 2); ("name", VStr "Deleted"); ("undefined", VBool true);
   ("deletedAt", VDate 1000)].

(* ------------------------------------------------------------------ *)
(** * Well-formed configurations and document predicates *)

(** The data model maps each logical field to a key of its own: the key of an
    enabled timestamp or actor field is not the key of the flag. *)
Definition timestamp_key_ok (o : opts) : Prop :=
  deletedAt o = true -> atKey o <> flagKey o.

Definition actor_key_ok (o : opts) : Prop :=
  deletedBy o = true -> byKey o <> flagKey o.

(** The hook's test [filter[opts.deletedField] !== undefined]: it holds of a
    filter with an own entry on the flag path, and of every filter when the
    flag name is a member of [Object.prototype]. *)
Definition constrains (o : opts) (filter : obj) : bool :=
  negb (reads_undefined filter (flagKey o)).

(** The document's flag is [true]. *)
Definition flagged (o : opts) (d : obj) : bool :=
  value_eqb (VBool true) (obj_get d (flagKey o)).




(** Further sample configurations and data. *)

(** [{ deletedBy: true, deletedByType: "String" }]. *)
Definition string_actor_options : ParanoiaOptions :=
  {| o_deletedAt := None; o_deletedBy := Some true;
     o_deletedByType := Some "String"; o_activeArchive := None;
     o_deletedField := None; o_deletedAtField := None;
     o_deletedByField := None |}.

(** [{ deletedAtField: "deleted" }]: the timestamp under the flag's name. *)
Definition colliding_options : ParanoiaOptions :=
  {| o_deletedAt := None; o_deletedBy := None; o_deletedByType := None;
     o_activeArchive := None; o_deletedField := None;
     o_deletedAtField := Some (Some "deleted"); o_deletedByField := None |}.

(** A record written before the plugin was installed. *)
Definition legacy_user : obj := [("_id", VNum 3); ("name", VStr "Legacy")].

(** [{ deletedField: "toString" }] and [{ deletedField: "valueOf" }]: the
    flag under the name of a member of [Object.prototype]. *)
Definition toString_flag_options : ParanoiaOptions :=
  {| o_deletedAt := None; o_deletedBy := None; o_deletedByType := None;
     o_activeArchive := None; o_deletedField := Some (Some "toString");
     o_deletedAtField := None; o_deletedByField := None |}.

Definition toString_flag_opts : opts := resolve toString_flag_options.





(** A soft-deleted document stored under the flag name ["toString"]. *)
Definition toString_record : obj :=
  [("_id", VNum 2); ("name", VStr "Deleted"); ("toString", VBool true);
   ("deletedAt", VDate 1000)].


(* ------------------------------------------------------------------ *)
(** * Assignment sequences *)

(** Objects and schemas are both keyed lists written by "replace in place or
    append"; the functions below are that discipline over any payload, for
    the facts the two share. *)
Fixpoint al_set {A : Type} (l : list (string * A)) (k : string) (v : A)
  : list (string * A) :=
  match l with
  | [] => [(k, v)]
  | (k', v') :: r =>
      if String.eqb k' k then (k', v) :: r else (k', v') :: al_set r k v
  end.

Definition al_sets {A : Type} (w l : list (string * A)) : list (string * A) :=
  fold_left (fun acc kv => al_set acc (fst kv) (snd kv)) w l.

Fixpoint al_mem {A : Type} (l : list (string * A)) (k : string) : bool :=
  match l with
  | [] => false
  | (k', _) :: r => String.eqb k' k || al_mem r k
  end.


(** The declarations of the plugin's [schema.add] calls, in program order. *)
Definition plugin_fields (o : opts) : list (string * SchemaField) :=
  (flagKey o, {| f_type := TBoolean; f_default := VBool false;
                 f_index := true; f_ref := None |})
    :: (if deletedAt o
        then [(atKey o, {| f_type := TDate; f_default := VNull;
                           f_index := false; f_ref := None |})]
        else [])
    ++ (if deletedBy o
        then [(byKey o, {| f_type := fst (deletedByFieldType o);
                           f_default := VNull; f_index := false;
                           f_ref := snd (deletedByFieldType o) |})]
        else []).


(* ------------------------------------------------------------------ *)
(** * The sample collection under the default configuration *)

(** The behaviour the test-suite expects of [find], [deleted],
    [withDeleted], [deleteOne] and the static [restore]. *)
Example default_find_hides_deleted :
  fst (Store.exec default_opts (Model_find []) users) = Store.DocsResult [active_user].
Proof. reflexivity. Qed.

Example deleted_helper_selects_deleted :
  option_map (fun q => fst (Store.exec default_opts q users))
    (match deleted default_opts (Model_find []) with Ok q => Some q | Throw _ => None end)
  = Some (Store.DocsResult [deleted_user]).
Proof. reflexivity. Qed.

Example withDeleted_shows_all :
  fst (Store.exec default_opts (withDeleted (Model_find [])) users)
  = Store.DocsResult users.
Proof. reflexivity. Qed.

Example deleteOne_soft_deletes :
  Store.exec default_opts (deleteOne default_opts 2000 [("_id", VNum 1)] []) users
  = (Store.UpdateWriteOpResult 1 1,
     [[("_id", VNum 1); ("name", VStr "Active"); ("deleted", VBool true);
       ("deletedAt", VDate 2000)]; deleted_user]).
Proof. reflexivity. Qed.

Example restore_static_restores :
  Store.exec default_opts (restore default_opts []) users
  = (Store.UpdateWriteOpResult 1 1,
     [active_user;
      [("_id", VNum 2); ("name", VStr "Deleted"); ("deleted", VBool false);
       ("deletedAt", VNull)]]).
Proof. reflexivity. Qed.

(* ------------------------------------------------------------------ *)
(** * Lemmas on objects *)

Section ObjectLemmas.

Lemma obj_lookup_set_eq (o : obj) (k : string) (v : value) :
  obj_lookup (obj_set o k v) k = Some v.
Proof.
  induction o as [|[k' v'] r IH]; simpl.
  - now rewrite String.eqb_refl.
  - destruct (String.eqb k' k) eqn:E; simpl; rewrite E; auto.
Qed.

Lemma obj_lookup_set_neq (o : obj) (k k' : string) (v : value) :
  k <> k' -> obj_lookup (obj_set o k v) k' = obj_lookup o k'.
Proof.
  intros Hne. induction o as [|[k0 v0] r IH]; simpl.
  - destruct (String.eqb_spec k k'); [contradiction|reflexivity].
  - destruct (String.eqb_spec k0 k) as [->|Hk]; simpl.
    + destruct (String.eqb_spec k k'); [contradiction|reflexivity].
    + now rewrite IH.
Qed.

Lemma obj_get_set_eq (o : obj) (k : string) (v : value) :
  obj_get (obj_set o k v) k = v.
Proof. unfold obj_get. now rewrite obj_lookup_set_eq. Qed.

Lemma obj_get_set_neq (o : obj) (k k' : string) (v : value) :
  k <> k' -> obj_get (obj_set o k v) k' = obj_get o k'.
Proof. intros H. unfold obj_get. now rewrite obj_lookup_set_neq. Qed.

Lemma obj_has_set_neq (o : obj) (k k' : string) (v : value) :
  k <> k' -> obj_has (obj_set o k v) k' = obj_has o k'.
Proof. intros H. unfold obj_has. now rewrite obj_lookup_set_neq. Qed.

(** A property that is not there is appended. *)
Lemma obj_set_fresh (o : obj) (k : string) (v : value) :
  obj_has o k = false -> obj_set o k v = o ++ [(k, v)].
Proof.
  unfold obj_has. induction o as [|[k' v'] r IH]; simpl; [reflexivity|].
  destruct (String.eqb k' k); [discriminate|].
  intros H. now rewrite IH.
Qed.

Lemma obj_set_set_eq (o : obj) (k : string) (v v' : value) :
  obj_set (obj_set o k v) k v' = obj_set o k v'.
Proof.
  induction o as [|[k0 v0] r IH]; simpl.
  - now rewrite String.eqb_refl.
  - destruct (String.eqb k0 k) eqn:E; simpl; rewrite E; [reflexivity|].
    now rewrite IH.
Qed.

Lemma obj_set_keys_nodup (o : obj) (k : string) (v : value) :
  NoDup (map fst o) -> NoDup (map fst (obj_set o k v)).
Proof.
  intros H. induction o as [|[k0 v0] r IH]; simpl.
  - constructor; [intros []|constructor].
  - inversion H as [|? ? Hnin Hr]; subst.
    destruct (String.eqb_spec k0 k) as [->|Hk]; simpl.
    + now constructor.
    + constructor; [|auto].
      intros Hin. apply Hnin.
      clear - Hin Hk. induction r as [|[k1 v1] r IH]; simpl in *.
      * destruct Hin as [->|[]]. contradiction.
      * destruct (String.eqb_spec k1 k) as [->|Hk1]; simpl in *; auto.
        destruct Hin as [->|Hin]; auto.
Qed.

Lemma obj_lookup_not_in (o : obj) (k : string) :
  ~ In k (map fst o) -> obj_lookup o k = None.
Proof.
  induction o as [|[k0 v0] r IH]; simpl; [reflexivity|].
  intros H. destruct (String.eqb_spec k0 k) as [->|Hk].
  - exfalso. apply H. now left.
  - apply IH. intros Hin. apply H. now right.
Qed.

(** [$set] of an object with distinct keys: its properties win, the others
    are the document's. *)
Lemma obj_get_assign (a b : obj) (k : string) :
  NoDup (map fst b) ->
  obj_get (obj_assign a b) k =
  match obj_lookup b k with
  | Some v => v
  | None => obj_get a k
  end.
Proof.
  revert a. induction b as [|[k0 v0] r IH]; intros a Hnd; simpl; [reflexivity|].
  inversion Hnd as [|? ? Hnin Hr]; subst.
  change (obj_assign a ((k0, v0) :: r)) with (obj_assign (obj_set a k0 v0) r).
  rewrite IH by assumption.
  destruct (String.eqb_spec k0 k) as [->|Hk].
  - rewrite (obj_lookup_not_in r k Hnin). apply obj_get_set_eq.
  - destruct (obj_lookup r k); [reflexivity|]. now apply obj_get_set_neq.
Qed.

End ObjectLemmas.

(** [value_eqb (VBool true) v] holds for [v = true] only. *)
Lemma eqb_true_iff (v : value) :
  value_eqb (VBool true) v = true <-> v = VBool true.
Proof.
  destruct v as [| |[|]| | | | |]; simpl; split; intros H;
    try discriminate; reflexivity.
Qed.

(* ------------------------------------------------------------------ *)
(** * Lemmas on the store *)

Section StoreLemmas.

Import Store.

Lemma cond_sat_true (v : value) :
  cond_sat (VBool true) v = value_eqb (VBool true) v.
Proof. reflexivity. Qed.

Lemma cond_sat_ne_true (v : value) :
  cond_sat ne_true v = negb (value_eqb (VBool true) v).
Proof. unfold ne_true, cond_sat. simpl. now rewrite andb_true_r. Qed.

(** A condition placed with [obj_set] is one of the conjuncts. *)
Lemma matches_set_sat (f : obj) (k : string) (c : value) (d : obj) :
  matches (obj_set f k c) d = true -> cond_sat c (obj_get d k) = true.
Proof.
  unfold matches. induction f as [|[k' c'] r IH]; simpl.
  - now rewrite andb_true_r.
  - destruct (String.eqb_spec k' k) as [->|Hk]; simpl;
      intros H; apply andb_true_iff in H; destruct H as [H1 H2]; auto.
Qed.

(** On a filter without the path, the new condition is intersected. *)
Lemma matches_set_fresh (f : obj) (k : string) (c : value) (d : obj) :
  obj_has f k = false ->
  matches (obj_set f k c) d = matches f d && cond_sat c (obj_get d k).
Proof.
  intros H. rewrite (obj_set_fresh _ _ _ H). unfold matches.
  rewrite forallb_app. simpl. now rewrite andb_true_r.
Qed.

Lemma update_first_shape (R : obj -> obj -> Prop) (f u : obj) (db : store) :
  (forall d, R d d) -> (forall d, matches f d = true -> R d (apply_set u d)) ->
  Forall2 R db (snd (update_first f u db)).
Proof.
  intros Hrefl Hset. induction db as [|d r IH]; simpl; [constructor|].
  destruct (matches f d) eqn:E; simpl.
  - constructor; [auto|]. clear IH. induction r; constructor; auto.
  - destruct (update_first f u r) as [x r'] eqn:Er. simpl in *.
    constructor; auto.
Qed.

Lemma update_all_shape (R : obj -> obj -> Prop) (f u : obj) (db : store) :
  (forall d, matches f d = false -> R d d) ->
  (forall d, matches f d = true -> R d (apply_set u d)) ->
  Forall2 R db (update_all f u db).
Proof.
  intros Hrefl Hset. unfold update_all.
  induction db as [|d r IH]; simpl; constructor; auto.
  destruct (matches f d) eqn:E; auto.
Qed.

(** The document [update_first] hands back is a matching document of the
    collection as it was. *)
Lemma update_first_found (f u : obj) (db : store) (d : obj) :
  fst (update_first f u db) = Some d -> In d db /\ matches f d = true.
Proof.
  induction db as [|x r IH]; simpl; [discriminate|].
  destruct (matches f x) eqn:E; simpl.
  - intros H. injection H as <-. auto.
  - destruct (update_first f u r) as [y r'] eqn:Er. simpl in *.
    intros H. destruct (IH H). auto.
Qed.

Lemma update_first_none (f u : obj) (db : store) :
  fst (update_first f u db) = None ->
  snd (update_first f u db) = db /\ forall d, In d db -> matches f d = false.
Proof.
  induction db as [|x r IH]; simpl; [intros _; split; [reflexivity|contradiction]|].
  destruct (matches f x) eqn:E; simpl; [discriminate|].
  destruct (update_first f u r) as [y r'] eqn:Er. simpl in *.
  intros H. destruct (IH H) as [-> Hall]. split; [reflexivity|].
  intros d [<-|Hin]; auto.
Qed.

(** The first matching document is the one updated. *)
Lemma update_first_at (f u : obj) (db1 db2 : store) (d : obj) :
  (forall x, In x db1 -> matches f x = false) -> matches f d = true ->
  update_first f u (db1 ++ d :: db2) = (Some d, db1 ++ apply_set u d :: db2).
Proof.
  intros Hno Hd. induction db1 as [|x r IH]; simpl.
  - now rewrite Hd.
  - rewrite (Hno x (or_introl eq_refl)).
    rewrite IH; [reflexivity|]. intros y Hy. apply Hno. now right.
Qed.

End StoreLemmas.

(** The hooks touch the conditions only. *)
Lemma pre_frame (o : opts) (q : Query) :
  op (pre o q) = op q /\ _update (pre o q) = _update q /\
  options (pre o q) = options q /\ _includeDeleted (pre o q) = _includeDeleted q.
Proof.
  unfold pre, queryMiddleware.
  destruct (ActiveArchive_eqb (activeArchive o) Default && hooked (op q)); auto.
  destruct (_includeDeleted q) eqn:E; auto.
  destruct (negb (name_truthy (deletedField o))); auto.
  destruct (reads_undefined (getFilter q) (flagKey o)); simpl; auto.
Qed.

(** No hook is registered on [updateOne] and [updateMany]. *)
Lemma pre_unhooked (o : opts) (q : Query) :
  hooked (op q) = false -> pre o q = q.
Proof. unfold pre. intros ->. now rewrite andb_false_r. Qed.

(* ------------------------------------------------------------------ *)
(** * The soft-delete and restore updates *)

Lemma obj_literal_two (k1 k2 : string) (v1 v2 : value) :
  obj_literal [(k1, v1); (k2, v2)] = obj_set [(k1, v1)] k2 v2.
Proof. reflexivity. Qed.

(** [$set] with the soft-delete update assigns the flag, then the
    timestamp. *)
Lemma apply_soft_delete (o : opts) (now : Z) (d : obj) :
  Store.apply_set (soft_delete_update o now) d =
  if deletedAt o
  then obj_set (obj_set d (flagKey o) (VBool true)) (atKey o) (VDate now)
  else obj_set d (flagKey o) (VBool true).
Proof.
  unfold Store.apply_set, soft_delete_update.
  destruct (deletedAt o); [|reflexivity].
  rewrite obj_literal_two. cbn [obj_set].
  destruct (String.eqb_spec (flagKey o) (atKey o)) as [E|E]; cbn.
  - rewrite <- E. now rewrite obj_set_set_eq.
  - reflexivity.
Qed.

Lemma soft_delete_update_flag (o : opts) (now : Z) :
  timestamp_key_ok o ->
  obj_get (soft_delete_update o now) (flagKey o) = VBool true.
Proof.
  intros Hok. unfold soft_delete_update.
  destruct (deletedAt o) eqn:E.
  - rewrite obj_literal_two, obj_get_set_neq by auto.
    unfold obj_get. simpl. now rewrite String.eqb_refl.
  - unfold obj_get. cbn. now rewrite String.eqb_refl.
Qed.

Lemma soft_delete_update_at (o : opts) (now : Z) :
  deletedAt o = true ->
  obj_get (soft_delete_update o now) (atKey o) = VDate now.
Proof.
  intros E. unfold soft_delete_update. rewrite E, obj_literal_two.
  apply obj_get_set_eq.
Qed.

Lemma soft_delete_update_keys (o : opts) (now : Z) (k : string) :
  obj_has (soft_delete_update o now) k = true ->
  k = flagKey o \/ (deletedAt o = true /\ k = atKey o).
Proof.
  unfold soft_delete_update. destruct (deletedAt o).
  - rewrite obj_literal_two.
    destruct (String.eqb_spec (atKey o) k) as [<-|Hk]; [now right|].
    rewrite obj_has_set_neq by assumption.
    unfold obj_has. simpl.
    destruct (String.eqb_spec (flagKey o) k); [now left|discriminate].
  - unfold obj_has. cbn.
    destruct (String.eqb_spec (flagKey o) k); [now left|discriminate].
Qed.

(** After the soft-delete [$set], the flag is [true] and the timestamp is the
    time of the call. *)
Lemma soft_deleted_fields (o : opts) (now : Z) (d : obj) :
  timestamp_key_ok o ->
  obj_get (Store.apply_set (soft_delete_update o now) d) (flagKey o) = VBool true /\
  (deletedAt o = true ->
   obj_get (Store.apply_set (soft_delete_update o now) d) (atKey o) = VDate now).
Proof.
  intros Hok. rewrite apply_soft_delete.
  destruct (deletedAt o) eqn:E.
  - split; [|intros _; apply obj_get_set_eq].
    rewrite obj_get_set_neq by auto. apply obj_get_set_eq.
  - split; [apply obj_get_set_eq|discriminate].
Qed.

(** The timestamp is assigned last, whatever the keys are. *)
Lemma soft_deleted_timestamp (o : opts) (now : Z) (d : obj) :
  deletedAt o = true ->
  obj_get (Store.apply_set (soft_delete_update o now) d) (atKey o) = VDate now.
Proof. intros E. rewrite apply_soft_delete, E. apply obj_get_set_eq. Qed.

Lemma delete_query_shape (o : opts) (now : Z) (c : DeleteCall) :
  op (delete_query o now c) =
    match c with
    | CallDeleteOne _ _ => updateOne
    | CallDeleteMany _ _ => updateMany
    | _ => findOneAndUpdate
    end /\
  _update (delete_query o now c) = VObj [("$set", VObj (soft_delete_update o now))] /\
  _conditions (delete_query o now c) = call_filter c.
Proof. destruct c; repeat split. Qed.

(** Execution of an update-class query leaves every stored document in
    place, either untouched or with [$set] applied to a matching one. *)
Lemma exec_update_shape (o : opts) (q : Query) (u : obj) (db : Store.store) :
  _update q = VObj [("$set", VObj u)] ->
  Forall2 (fun d d' => d' = d \/
             (Store.matches (_conditions (pre o q)) d = true /\
              d' = Store.apply_set u d))
    db (snd (Store.exec o q db)).
Proof.
  intros Hu. unfold Store.exec, Store.exec_op.
  destruct (pre_frame o q) as (Hop & Hup & _).
  rewrite Hup, Hu. change (Store.set_part (VObj [("$set", VObj u)])) with u.
  set (c := _conditions (pre o q)).
  assert (Hrefl : forall d : obj, d = d \/ (Store.matches c d = true /\ d = Store.apply_set u d))
    by (intros; now left).
  destruct (op (pre o q)); simpl.
  - clear. induction db; constructor; auto.
  - clear. induction db; constructor; auto.
  - pose proof (update_first_shape
      (fun d d' => d' = d \/ (Store.matches c d = true /\ d' = Store.apply_set u d))
      c u db) as H.
    destruct (Store.update_first c u db) as [x db']. simpl in *.
    apply H; auto.
  - clear. induction db; constructor; auto.
  - pose proof (update_first_shape
      (fun d d' => d' = d \/ (Store.matches c d = true /\ d' = Store.apply_set u d))
      c u db) as H.
    destruct (Store.update_first c u db) as [x db']. simpl in *.
    destruct x; simpl; apply H; auto.
  - apply update_all_shape; auto.
Qed.

(** Every stored document is kept by a delete-class call, as it is or with
    the soft-delete update applied. *)
Lemma delete_exec_kept (o : opts) (now : Z) (c : DeleteCall) (db : Store.store) :
  Forall2 (fun d d' => d' = d \/ d' = Store.apply_set (soft_delete_update o now) d)
    db (snd (Store.exec o (delete_query o now c) db)).
Proof.
  destruct (delete_query_shape o now c) as (_ & Hup & _).
  eapply Forall2_impl; [|apply (exec_update_shape o _ _ db Hup)].
  intros d d' [->|[_ ->]]; auto.
Qed.

(** Counterexample to C1 as stated: timestamps are enabled and the timestamp
    is configured under the flag's own name
    ([{ deletedAtField: "deleted" }]).  The object literal of the update then
    holds one property, the time of the call, and after [deleteOne] the flag
    field of the selected document holds that time, not [true]. *)
Lemma delete_flag_counterexample :
  deletedAt (resolve colliding_options) = true /\
  flagKey (resolve colliding_options) = "deleted" /\
  _update (deleteOne (resolve colliding_options) 2000 [("_id", VNum 3)] [])
  = VObj [("$set", VObj [("deleted", VDate 2000)])] /\
  snd (Store.exec (resolve colliding_options)
         (deleteOne (resolve colliding_options) 2000 [("_id", VNum 3)] [])
         [legacy_user])
  = [[("_id", VNum 3); ("name", VStr "Legacy"); ("deleted", VDate 2000)]] /\
  flagged (resolve colliding_options)
    [("_id", VNum 3); ("name", VStr "Legacy"); ("deleted", VDate 2000)] = false.
Proof. repeat split. Qed.

(** C1, amended. Every delete-class call ([deleteOne], [deleteMany],
    [findOneAndDelete], [findByIdAndDelete]), under every read-visibility
    policy, is an update operation: it carries the caller's filter unchanged
    and a [$set] on the flag field and, when timestamps are enabled, the
    timestamp field, and on nothing else.  The timestamp is assigned the time
    of the call; the flag is assigned [true], unless timestamps are enabled
    and the timestamp is configured under the flag's own name.  Executing the
    call removes no document: every stored document stays in place, untouched
    or with the update applied.  The find-and-delete variants force
    [new: false] and return [null] or a document of the collection as it was
    before the update. *)
Theorem delete_rewritten_to_update
  (o : opts) (now : Z) (c : DeleteCall) (db : Store.store) :
  let q := delete_query o now c in
  let u := soft_delete_update o now in
  op q = match c with
         | CallDeleteOne _ _ => updateOne
         | CallDeleteMany _ _ => updateMany
         | _ => findOneAndUpdate
         end /\
  _update q = VObj [("$set", VObj u)] /\
  _conditions q = call_filter c /\
  (timestamp_key_ok o -> obj_get u (flagKey o) = VBool true) /\
  (deletedAt o = true -> obj_get u (atKey o) = VDate now) /\
  (forall k, obj_has u k = true ->
             k = flagKey o \/ (deletedAt o = true /\ k = atKey o)) /\
  Forall2 (fun d d' =>
             d' = d \/
             (d' = Store.apply_set u d /\
              (timestamp_key_ok o -> obj_get d' (flagKey o) = VBool true) /\
              (deletedAt o = true -> obj_get d' (atKey o) = VDate now)))
    db (snd (Store.exec o q db)) /\
  (is_find_and_delete c = true ->
   obj_get (options q) "new" = VBool false /\
   (fst (Store.exec o q db) = Store.DocResult VNull \/
    exists d, fst (Store.exec o q db) = Store.DocResult (VObj d) /\ In d db)).
Proof.
  intros q u.
  destruct (delete_query_shape o now c) as (Hop & Hup & Hc).
  fold q in Hop, Hup, Hc. fold u in Hup.
  split; [exact Hop|]. split; [exact Hup|]. split; [exact Hc|].
  split; [intros Hok; now apply soft_delete_update_flag|].
  split; [now apply soft_delete_update_at|].
  split; [apply soft_delete_update_keys|].
  split.
  - eapply Forall2_impl; [|apply (delete_exec_kept o now c db)].
    intros d d' [->| ->]; [now left|right].
    split; [reflexivity|]. split.
    + intros Hok. now destruct (soft_deleted_fields o now d Hok).
    + now apply soft_deleted_timestamp.
  - intros Hfd.
    assert (Hnew : obj_get (options q) "new" = VBool false)
      by (destruct c; try discriminate; apply obj_get_set_eq).
    split; [exact Hnew|].
    unfold Store.exec, Store.exec_op.
    destruct (pre_frame o q) as (Hop' & Hup' & Hopt' & _).
    rewrite Hop', Hop, Hup', Hopt', Hnew.
    destruct c; try discriminate; simpl;
      match goal with
      | |- context [Store.update_first ?f ?w db] =>
          pose proof (update_first_found f w db) as Hf;
          destruct (Store.update_first f w db) as [[x|] db']; simpl in *
      end;
      try (now left);
      right; exists x; (split; [reflexivity|now destruct (Hf x eq_refl)]).
Qed.

(** Witness for C1: the default configuration, [findOneAndDelete({ _id: 1 })]
    on the two sample users. *)
Lemma delete_rewritten_to_update_witness :
  timestamp_key_ok default_opts /\
  obj_get (soft_delete_update default_opts 2000) (flagKey default_opts)
  = VBool true /\
  fst (Store.exec default_opts
         (findOneAndDelete default_opts 2000 [("_id", VNum 1)] []) users)
  = Store.DocResult (VObj active_user).
Proof.
  assert (H : timestamp_key_ok default_opts) by (intros _; discriminate).
  split; [exact H|].
  pose proof (delete_rewritten_to_update default_opts 2000
                (CallFindOneAndDelete [("_id", VNum 1)] []) users) as T.
  destruct T as (_ & _ & _ & T1 & _ & _ & _ & T).
  split; [exact (T1 H)|].
  destruct (T eq_refl) as [_ [T'|[d [T' _]]]]; reflexivity.
Defined.

(* ------------------------------------------------------------------ *)
(** * Read filtering under policy [Default] *)

Lemma merge_skips_inherited (k : string) :
  merge_skips k = false -> inherited k = false.
Proof. unfold merge_skips. intros H. now apply orb_false_iff in H. Qed.

(** For a name that is no member of [Object.prototype] the read is the own
    property. *)
Lemma reads_undefined_own (o : obj) (k : string) :
  inherited k = false -> reads_undefined o k = is_undefined (obj_get o k).
Proof.
  intros H. unfold reads_undefined, obj_get.
  destruct (obj_lookup o k); [reflexivity|]. now rewrite H.
Qed.

(** The hook's test on a filter, by the filter's own entry. *)
Lemma constrains_own (o : opts) (filter : obj) :
  constrains o filter =
  match obj_lookup filter (flagKey o) with
  | Some v => negb (is_undefined v)
  | None => inherited (flagKey o)
  end.
Proof.
  unfold constrains, reads_undefined.
  destruct (obj_lookup filter (flagKey o)); [reflexivity|apply negb_involutive].
Qed.

(** [where] with one property whose key the merge passes over. *)
Lemma where_skipped (q : Query) (k : string) (v : value) :
  merge_skips k = true -> where_ q [(k, v)] = q.
Proof.
  intros H. unfold where_, merge_entry. cbn [fold_left fst snd]. rewrite H.
  now destruct q.
Qed.

(** What the middleware adds when it adds something. *)
Lemma where_ne_true_fresh (o : opts) (q : Query) :
  merge_skips (flagKey o) = false ->
  constrains o (_conditions q) = false ->
  _conditions (where_ q [(flagKey o, ne_true)]) =
  obj_set (_conditions q) (flagKey o) ne_true.
Proof.
  intros Hs Hc. unfold constrains in Hc. apply negb_false_iff in Hc.
  rewrite (reads_undefined_own _ _ (merge_skips_inherited _ Hs)) in Hc.
  unfold where_, merge_entry. cbn [fold_left fst snd _conditions]. rewrite Hs.
  destruct (obj_get (_conditions q) (flagKey o)); try discriminate.
  reflexivity.
Qed.

(** The middleware's guards, and what it does past them. *)
Lemma pre_guarded (o : opts) (q : Query) :
  _includeDeleted q = true \/ name_truthy (deletedField o) = false \/
  constrains o (_conditions q) = true -> pre o q = q.
Proof.
  unfold pre, queryMiddleware, getFilter, constrains.
  destruct (ActiveArchive_eqb (activeArchive o) Default && hooked (op q));
    [|reflexivity].
  intros [->|[->|Hc]]; [reflexivity| |].
  - now destruct (_includeDeleted q).
  - destruct (_includeDeleted q); [reflexivity|].
    destruct (negb (name_truthy (deletedField o))); [reflexivity|].
    apply negb_true_iff in Hc. now rewrite Hc.
Qed.

(** A flag name the merge passes over: the hooks change no query. *)
Lemma pre_skipped (o : opts) (q : Query) :
  merge_skips (flagKey o) = true -> pre o q = q.
Proof.
  intros Hs. unfold pre, queryMiddleware.
  destruct (ActiveArchive_eqb (activeArchive o) Default && hooked (op q));
    [|reflexivity].
  destruct (_includeDeleted q); [reflexivity|].
  destruct (negb (name_truthy (deletedField o))); [reflexivity|].
  destruct (reads_undefined (getFilter q) (flagKey o)); [|reflexivity].
  now apply where_skipped.
Qed.

Lemma pre_injects (o : opts) (q : Query) :
  activeArchive o = Default -> hooked (op q) = true ->
  _includeDeleted q = false -> name_truthy (deletedField o) = true ->
  constrains o (_conditions q) = false ->
  merge_skips (flagKey o) = false ->
  pre o q = where_ q [(flagKey o, ne_true)] /\
  _conditions (pre o q) = obj_set (_conditions q) (flagKey o) ne_true.
Proof.
  intros Hd Hh Hi Ht Hc Hs.
  assert (E : pre o q = where_ q [(flagKey o, ne_true)]).
  { unfold pre, queryMiddleware, getFilter. rewrite Hd, Hh, Hi, Ht. simpl.
    unfold constrains in Hc. apply negb_false_iff in Hc. now rewrite Hc. }
  split; [exact E|]. rewrite E. now apply where_ne_true_fresh.
Qed.




(** ** Aggregation *)


Lemma hasDeletedFilter_match (o : opts) (f : obj) (rest : list value) :
  hasDeletedFilter o (VObj [("$match", VObj f)] :: rest) = constrains o f.
Proof. reflexivity. Qed.




(* ------------------------------------------------------------------ *)
(** * Find-and-delete under policy [Default] *)

(** Counterexample to C5 as stated: policy [Default], the caller's filter
    [{ _id: 2 }] holds no entry for the flag field, the stored document's
    flag is [true].  With the flag name [undefined] the hook on
    [findOneAndUpdate] returns at its guard; with the flag name ["toString"]
    it reads the inherited method off the filter and injects nothing.  In
    both cases [findOneAndDelete] matches the document and returns it instead
    of [null]. *)
Lemma find_and_delete_counterexample :
  (activeArchive undefined_flag_opts = Default /\
   obj_has [("_id", VNum 2)] (flagKey undefined_flag_opts) = false /\
   flagged undefined_flag_opts deleted_record = true /\
   Store.exec undefined_flag_opts
     (findOneAndDelete undefined_flag_opts 2000 [("_id", VNum 2)] [])
     [deleted_record]
   = (Store.DocResult (VObj deleted_record),
      [[("_id", VNum 2); ("name", VStr "Deleted"); ("undefined", VBool true);
        ("deletedAt", VDate 2000)]])) /\
  (activeArchive toString_flag_opts = Default /\
   name_truthy (deletedField toString_flag_opts) = true /\
   obj_has [("_id", VNum 2)] (flagKey toString_flag_opts) = false /\
   flagged toString_flag_opts toString_record = true /\
   Store.exec toString_flag_opts
     (findOneAndDelete toString_flag_opts 2000 [("_id", VNum 2)] [])
     [toString_record]
   = (Store.DocResult (VObj toString_record),
      [[("_id", VNum 2); ("name", VStr "Deleted"); ("toString", VBool true);
        ("deletedAt", VDate 2000)]])).
Proof. repeat split. Qed.

(** A filter with the injected condition selects no flagged document. *)
Lemma injected_excludes_flagged (o : opts) (f : obj) (d : obj) :
  Store.matches (obj_set f (flagKey o) ne_true) d = true -> flagged o d = false.
Proof.
  intros H. apply matches_set_sat in H. rewrite cond_sat_ne_true in H.
  now apply negb_true_iff in H.
Qed.

(** C5, amended. Under policy [Default], a truthy flag name and a flag name
    that Mongoose's condition merge writes, [findOneAndDelete] and
    [findByIdAndDelete] are [findOneAndUpdate] operations, on which the read
    middleware runs: when the read of the flag field on the caller's filter
    is [undefined], the executed filter is the caller's with [flag != true]
    added, no document whose flag is [true] matches it, each such document
    is left as it is, and the call returns [null] or a document whose flag is
    not [true] ([null] when every stored document is flagged).  [deleteOne]
    and [deleteMany] run with the caller's filter as it is, under every
    configuration. *)
Theorem find_and_delete_skips_deleted
  (o : opts) (now : Z) (c : DeleteCall) (db : Store.store) :
  activeArchive o = Default -> name_truthy (deletedField o) = true ->
  merge_skips (flagKey o) = false ->
  (is_find_and_delete c = true -> constrains o (call_filter c) = false ->
   let q := delete_query o now c in
   op q = findOneAndUpdate /\
   _conditions (pre o q) = obj_set (call_filter c) (flagKey o) ne_true /\
   (forall d, flagged o d = true -> Store.matches (_conditions (pre o q)) d = false) /\
   Forall2 (fun d d' => flagged o d = true -> d' = d)
     db (snd (Store.exec o q db)) /\
   (fst (Store.exec o q db) = Store.DocResult VNull \/
    exists d, fst (Store.exec o q db) = Store.DocResult (VObj d) /\
              In d db /\ flagged o d = false) /\
   ((forall d, In d db -> flagged o d = true) ->
    Store.exec o q db = (Store.DocResult VNull, db))) /\
  (is_find_and_delete c = false ->
   pre o (delete_query o now c) = delete_query o now c /\
   _conditions (pre o (delete_query o now c)) = call_filter c).
Proof.
  intros Hd Ht Hs. split.
  - intros Hc Hfree q.
    destruct (delete_query_shape o now c) as (Hop & Hup & Hcond).
    fold q in Hop, Hup, Hcond.
    assert (Hop' : op q = findOneAndUpdate)
      by (rewrite Hop; destruct c; try discriminate; reflexivity).
    assert (Hpre : _conditions (pre o q) = obj_set (call_filter c) (flagKey o) ne_true).
    { rewrite <- Hcond.
      apply (pre_injects o q Hd);
        [now rewrite Hop'| |assumption|now rewrite Hcond|assumption].
      destruct c; reflexivity. }
    assert (Hex : forall d, flagged o d = true ->
                            Store.matches (_conditions (pre o q)) d = false).
    { intros d Hf. destruct (Store.matches (_conditions (pre o q)) d) eqn:E; auto.
      rewrite Hpre in E. apply injected_excludes_flagged in E. congruence. }
    assert (Hnew : obj_get (options q) "new" = VBool false)
      by (destruct c; try discriminate; apply obj_get_set_eq).
    repeat split; auto.
    + eapply Forall2_impl; [|apply (exec_update_shape o q _ db Hup)].
      intros d d' [->|[Hm ->]] Hf; [reflexivity|].
      rewrite (Hex d Hf) in Hm. discriminate.
    + unfold Store.exec, Store.exec_op.
      destruct (pre_frame o q) as (Hq1 & Hq2 & Hq3 & _).
      rewrite Hq1, Hop', Hq2, Hq3, Hnew. simpl.
      match goal with
      | |- context [Store.update_first ?f ?w db] =>
          pose proof (update_first_found f w db) as Hf;
          destruct (Store.update_first f w db) as [[x|] db']; simpl in *
      end; [right|now left].
      exists x. destruct (Hf x eq_refl) as [Hin Hm].
      repeat split; auto.
      rewrite Hpre in Hm. now apply injected_excludes_flagged in Hm.
    + intros Hall. unfold Store.exec, Store.exec_op.
      destruct (pre_frame o q) as (Hq1 & Hq2 & Hq3 & _).
      rewrite Hq1, Hop', Hq2, Hq3, Hnew. simpl.
      match goal with
      | |- context [Store.update_first ?f ?w db] =>
          pose proof (update_first_found f w db) as Hf;
          pose proof (update_first_none f w db) as Hn;
          destruct (Store.update_first f w db) as [[x|] db']; simpl in *
      end.
      * destruct (Hf x eq_refl) as [Hin Hm].
        rewrite (Hex x (Hall x Hin)) in Hm. discriminate.
      * now destruct (Hn eq_refl) as [-> _].
  - intros Hc.
    assert (H : pre o (delete_query o now c) = delete_query o now c)
      by (apply pre_unhooked; destruct c; try discriminate; reflexivity).
    rewrite H. split; [reflexivity|].
    apply (delete_query_shape o now c).
Qed.

(** Witness for C5: the default configuration and the two sample users;
    [findByIdAndDelete] of the deleted user returns [null] and changes
    nothing. *)
Lemma find_and_delete_skips_deleted_witness :
  activeArchive default_opts = Default /\
  name_truthy (deletedField default_opts) = true /\
  merge_skips (flagKey default_opts) = false /\
  is_find_and_delete (CallFindByIdAndDelete (VNum 2) []) = true /\
  constrains default_opts (call_filter (CallFindByIdAndDelete (VNum 2) [])) = false /\
  (fst (Store.exec default_opts
          (findByIdAndDelete default_opts 2000 (VNum 2) []) users)
   = Store.DocResult VNull \/
   exists d,
     fst (Store.exec default_opts
            (findByIdAndDelete default_opts 2000 (VNum 2) []) users)
     = Store.DocResult (VObj d) /\ In d users /\ flagged default_opts d = false).
Proof.
  repeat (split; [reflexivity|]).
  destruct (find_and_delete_skips_deleted default_opts 2000
              (CallFindByIdAndDelete (VNum 2) []) users eq_refl eq_refl eq_refl)
    as [H _].
  destruct (H eq_refl eq_refl) as (_ & _ & _ & _ & H' & _).
  exact H'.
Defined.

(* ------------------------------------------------------------------ *)
(** * Query helpers *)

(** [deleted] overwrites whatever condition the flag path had. *)
Lemma where_true (o : opts) (q : Query) :
  merge_skips (flagKey o) = false ->
  _conditions (where_ q [(flagKey o, VBool true)]) =
  obj_set (_conditions q) (flagKey o) (VBool true).
Proof.
  intros Hs. unfold where_, merge_entry. cbn [fold_left fst snd _conditions].
  rewrite Hs. cbn [merge_cond].
  now destruct (is_nullish (obj_get (_conditions q) (flagKey o))).
Qed.

(** The merge of [{ $ne: true }] into any condition is an object holding
    [$ne: true]. *)
Lemma merge_cond_ne_true (tv : value) :
  merge_cond ne_true tv = VObj (obj_set (as_obj tv) "$ne" (VBool true)).
Proof.
  unfold ne_true. simpl.
  now destruct (is_nullish (obj_get (as_obj tv) "$ne")).
Qed.

(** [active] leaves a condition on the flag path: the merge of [{ $ne: true }]
    with anything is an object. *)
Lemma where_ne_true_constrains (o : opts) (q : Query) :
  merge_skips (flagKey o) = false ->
  constrains o (_conditions (where_ q [(flagKey o, ne_true)])) = true.
Proof.
  intros Hs. unfold constrains.
  rewrite (reads_undefined_own _ _ (merge_skips_inherited _ Hs)).
  unfold where_, merge_entry. cbn [fold_left fst snd _conditions].
  rewrite Hs, obj_get_set_eq.
  destruct (is_nullish (obj_get (_conditions q) (flagKey o)));
    [reflexivity|now rewrite merge_cond_ne_true].
Qed.

(** The hooks leave a query alone once the read of the flag path on its
    filter is not [undefined]. *)
Lemma pre_constrained (o : opts) (q : Query) :
  constrains o (_conditions q) = true -> pre o q = q.
Proof. intros Hc. apply pre_guarded. auto. Qed.



(** No hook changes the query a helper returns. *)
Lemma pre_after_helper (o : opts) (q : Query) (v : value) :
  v = ne_true \/ v = VBool true ->
  pre o (where_ q [(flagKey o, v)]) = where_ q [(flagKey o, v)].
Proof.
  intros Hv. destruct (merge_skips (flagKey o)) eqn:Hs;
    [now apply pre_skipped|].
  apply pre_constrained. destruct Hv as [-> | ->].
  - now apply where_ne_true_constrains.
  - unfold constrains.
    rewrite (reads_undefined_own _ _ (merge_skips_inherited _ Hs)).
    now rewrite where_true, obj_get_set_eq.
Qed.




(** Execution does not read the include-deleted flag. *)
Lemma exec_op_withDeleted (q : Query) (db : Store.store) :
  Store.exec_op (withDeleted q) db = Store.exec_op q db.
Proof. reflexivity. Qed.

Lemma pre_withDeleted (o : opts) (q : Query) :
  pre o (withDeleted q) = withDeleted q.
Proof.
  unfold pre, queryMiddleware. simpl.
  now destruct (ActiveArchive_eqb (activeArchive o) Default && hooked (op q)).
Qed.

Lemma pre_not_default (o : opts) (q : Query) :
  activeArchive o <> Default -> pre o q = q.
Proof.
  intros H. unfold pre.
  destruct (activeArchive o); [reflexivity|contradiction|reflexivity].
Qed.

(** C7. [withDeleted] sets the include-deleted flag and changes nothing else
    of the query: operation, filter, update and options are the caller's.
    Under policies [Scope] and [All] the query with the flag executes exactly
    as the query without it.  Under policy [Default] the hooks leave the
    flagged query as it is, so it executes as the caller's query does with no
    hook at all. *)
Theorem withDeleted_sets_flag_only (o : opts) (q : Query) (db : Store.store) :
  _includeDeleted (withDeleted q) = true /\
  op (withDeleted q) = op q /\
  _conditions (withDeleted q) = _conditions q /\
  _update (withDeleted q) = _update q /\
  options (withDeleted q) = options q /\
  (activeArchive o <> Default ->
   Store.exec o (withDeleted q) db = Store.exec o q db) /\
  (activeArchive o = Default ->
   pre o (withDeleted q) = withDeleted q /\
   _conditions (pre o (withDeleted q)) = _conditions q /\
   Store.exec o (withDeleted q) db = Store.exec_op q db).
Proof.
  repeat split.
  - intros H. unfold Store.exec.
    now rewrite pre_withDeleted, (pre_not_default o q H), exec_op_withDeleted.
  - apply pre_withDeleted.
  - now rewrite pre_withDeleted.
  - unfold Store.exec. now rewrite pre_withDeleted, exec_op_withDeleted.
Qed.

(** Witness for C7: under [Scope] the flag changes nothing, under [Default]
    [find().withDeleted()] returns both sample users. *)
Lemma withDeleted_sets_flag_only_witness :
  activeArchive scope_opts <> Default /\
  Store.exec scope_opts (withDeleted (Model_find [])) users
  = Store.exec scope_opts (Model_find []) users /\
  activeArchive default_opts = Default /\
  Store.exec default_opts (withDeleted (Model_find [])) users
  = Store.exec_op (Model_find []) users.
Proof.
  assert (H : activeArchive scope_opts <> Default) by discriminate.
  split; [exact H|]. split.
  - destruct (withDeleted_sets_flag_only scope_opts (Model_find []) users)
      as (_ & _ & _ & _ & _ & T & _).
    exact (T H).
  - split; [reflexivity|].
    destruct (withDeleted_sets_flag_only default_opts (Model_find []) users)
      as (_ & _ & _ & _ & _ & _ & T).
    destruct (T eq_refl) as (_ & _ & T'). exact T'.
Defined.

(* ------------------------------------------------------------------ *)
(** * A falsy flag name *)

(** C9. When the flag name of the resolved configuration is falsy (the empty
    string, or [undefined]): installing the plugin returns normally; every
    call of [active] and of [deleted] raises, with the helper's own message;
    the read middleware and the aggregate hook return the operation
    unchanged, raising nothing. *)
Theorem falsy_flag_name_raises_in_helpers
  (schema : Schema) (options : ParanoiaOptions) (q : Query) (a : Aggregate) :
  name_truthy (deletedField (resolve options)) = false ->
  Paranoia schema options
  = Ok (add_fields (resolve options) schema, resolve options) /\
  active (resolve options) q
  = Throw "deletedField is required for active query helper" /\
  deleted (resolve options) q
  = Throw "deletedField is required for deleted query helper" /\
  pre (resolve options) q = q /\
  queryMiddleware (resolve options) q = q /\
  pre_aggregate (resolve options) a = a.
Proof.
  intros H. unfold active, deleted, pre, queryMiddleware, pre_aggregate,
    aggregateMiddleware. rewrite H. simpl.
  repeat split.
  - destruct (ActiveArchive_eqb _ _ && hooked (op q)); [|reflexivity].
    now destruct (_includeDeleted q).
  - now destruct (_includeDeleted q).
  - destruct (ActiveArchive_eqb _ _); [|reflexivity].
    now destruct (agg_includeDeleted a).
Qed.

(** Witness for C9: [deletedField: ""]. *)
Lemma falsy_flag_name_raises_in_helpers_witness :
  name_truthy (deletedField (resolve empty_flag_options)) = false /\
  active (resolve empty_flag_options) (Model_find [])
  = Throw "deletedField is required for active query helper" /\
  pre (resolve empty_flag_options) (Model_find []) = Model_find [].
Proof.
  split; [reflexivity|].
  destruct (falsy_flag_name_raises_in_helpers user_schema empty_flag_options
              (Model_find []) (Model_aggregate []) eq_refl)
    as (_ & H1 & _ & H2 & _).
  split; assumption.
Defined.

(* ------------------------------------------------------------------ *)
(** * Repeated deletes *)

Lemma exec_updateMany (o : opts) (q : Query) (u : obj) (db : Store.store) :
  op q = updateMany -> _update q = VObj [("$set", VObj u)] ->
  Store.exec o q db =
  (Store.UpdateWriteOpResult
     (length (filter (Store.matches (_conditions q)) db))
     (length (filter (Store.changed u) (filter (Store.matches (_conditions q)) db))),
   Store.update_all (_conditions q) u db).
Proof.
  intros Hop Hu. unfold Store.exec.
  rewrite pre_unhooked by now rewrite Hop.
  unfold Store.exec_op. now rewrite Hop, Hu.
Qed.

Lemma exec_updateOne_at
  (o : opts) (q : Query) (u : obj) (db1 db2 : Store.store) (d : obj) :
  op q = updateOne -> _update q = VObj [("$set", VObj u)] ->
  (forall x, In x db1 -> Store.matches (_conditions q) x = false) ->
  Store.matches (_conditions q) d = true ->
  Store.exec o q (db1 ++ d :: db2) =
  (Store.UpdateWriteOpResult 1 (if Store.changed u d then 1 else 0),
   db1 ++ Store.apply_set u d :: db2).
Proof.
  intros Hop Hu Hno Hd. unfold Store.exec.
  rewrite pre_unhooked by now rewrite Hop.
  unfold Store.exec_op. rewrite Hop, Hu.
  change (Store.set_part (VObj [("$set", VObj u)])) with u.
  now rewrite (update_first_at _ u db1 db2 d Hno Hd).
Qed.

(** C10. With timestamps enabled: [deleteOne] and [deleteMany] run with the
    caller's filter as it is, with no condition on the flag added by the call
    or by a hook, under every policy.  [deleteMany] assigns the time of the
    call to the timestamp of every document the filter selects, and
    [deleteOne] to the first one, whether or not the document's flag is
    already [true]; a selected document whose timestamp is another time is
    changed by the call, so a repeated delete is not idempotent on the
    timestamp. *)
Theorem repeated_delete_overwrites_timestamp
  (o : opts) (now : Z) (filter options : obj) :
  deletedAt o = true ->
  let u := soft_delete_update o now in
  (pre o (deleteOne o now filter options) = deleteOne o now filter options /\
   _conditions (deleteOne o now filter options) = filter) /\
  (pre o (deleteMany o now filter options) = deleteMany o now filter options /\
   _conditions (deleteMany o now filter options) = filter) /\
  (forall db,
     snd (Store.exec o (deleteMany o now filter options) db)
     = map (fun x => if Store.matches filter x then Store.apply_set u x else x) db) /\
  (forall db1 d db2,
     (forall x, In x db1 -> Store.matches filter x = false) ->
     Store.matches filter d = true ->
     snd (Store.exec o (deleteOne o now filter options) (db1 ++ d :: db2))
     = db1 ++ Store.apply_set u d :: db2) /\
  (forall d,
     obj_get (Store.apply_set u d) (atKey o) = VDate now /\
     (obj_get d (atKey o) <> VDate now -> Store.apply_set u d <> d)).
Proof.
  intros Hat u.
  split; [split; [now apply pre_unhooked|reflexivity]|].
  split; [split; [now apply pre_unhooked|reflexivity]|].
  split; [|split].
  - intros db.
    now rewrite (exec_updateMany o (deleteMany o now filter options) u db
                   eq_refl eq_refl).
  - intros db1 d db2 Hno Hd.
    now rewrite (exec_updateOne_at o (deleteOne o now filter options) u
                   db1 db2 d eq_refl eq_refl Hno Hd).
  - intros d. split; [now apply soft_deleted_timestamp|].
    intros Hne E. apply Hne. rewrite <- E at 1.
    now apply soft_deleted_timestamp.
Qed.

(** Witness for C10: the deleted sample user, deleted at time 1000, is
    selected again by [deleteMany({})] at time 2000 and its timestamp
    becomes 2000. *)
Lemma repeated_delete_overwrites_timestamp_witness :
  deletedAt default_opts = true /\
  flagged default_opts deleted_user = true /\
  obj_get deleted_user (atKey default_opts) = VDate 1000 /\
  snd (Store.exec default_opts (deleteMany default_opts 2000 [] []) [deleted_user])
  = [[("_id", VNum 2); ("name", VStr "Deleted"); ("deleted", VBool true);
      ("deletedAt", VDate 2000)]].
Proof.
  repeat (split; [reflexivity|]).
  destruct (repeated_delete_overwrites_timestamp default_opts 2000 [] [] eq_refl)
    as (_ & _ & H & _).
  rewrite (H [deleted_user]). reflexivity.
Defined.

(* ------------------------------------------------------------------ *)
(** * Restore *)

Lemma restore_update_nodup (o : opts) : NoDup (map fst (restore_update o)).
Proof.
  unfold restore_update.
  destruct (deletedAt o), (deletedBy o);
    repeat apply obj_set_keys_nodup; simpl; repeat constructor; intros [].
Qed.




Lemma restore_exec (o : opts) (filter : obj) (db : Store.store) :
  Store.exec o (restore o filter) db =
  (Store.UpdateWriteOpResult
     (length (List.filter
                (Store.matches (obj_set filter (flagKey o) (VBool true))) db))
     (length (List.filter (Store.changed (restore_update o))
                (List.filter
                   (Store.matches (obj_set filter (flagKey o) (VBool true))) db))),
   Store.update_all (obj_set filter (flagKey o) (VBool true)) (restore_update o) db).
Proof. apply (exec_updateMany o (restore o filter) (restore_update o) db); reflexivity. Qed.

(** The restore update at the three fields, whatever the configured keys:
    the flag is [false], or [null] when the timestamp or the actor is
    configured under the flag's name; an enabled timestamp and an enabled
    actor are [null]. *)
Lemma restore_update_flag_cases (o : opts) :
  obj_lookup (restore_update o) (flagKey o) = Some (VBool false) \/
  obj_lookup (restore_update o) (flagKey o) = Some VNull.
Proof.
  unfold restore_update. cbv zeta.
  change (obj_literal [(flagKey o, VBool false)]) with [(flagKey o, VBool false)].
  assert (H0 : obj_lookup [(flagKey o, VBool false)] (flagKey o) = Some (VBool false))
    by (simpl; now rewrite String.eqb_refl).
  destruct (deletedAt o), (deletedBy o);
    repeat match goal with
    | |- context [obj_lookup (obj_set ?x ?k ?v) (flagKey o)] =>
        let E := fresh "E" in
        destruct (String.eqb_spec k (flagKey o)) as [E|E];
        [ rewrite E, obj_lookup_set_eq; now right
        | rewrite (obj_lookup_set_neq x k (flagKey o) v E) ]
    end; now left.
Qed.

Lemma restore_update_at (o : opts) :
  deletedAt o = true -> obj_lookup (restore_update o) (atKey o) = Some VNull.
Proof.
  intros Ha. unfold restore_update. cbv zeta. rewrite Ha.
  destruct (deletedBy o); [|apply obj_lookup_set_eq].
  destruct (String.eqb_spec (byKey o) (atKey o)) as [E|E].
  - rewrite E. apply obj_lookup_set_eq.
  - rewrite obj_lookup_set_neq by assumption. apply obj_lookup_set_eq.
Qed.

Lemma restore_update_by (o : opts) :
  deletedBy o = true -> obj_lookup (restore_update o) (byKey o) = Some VNull.
Proof.
  intros Hb. unfold restore_update. cbv zeta. rewrite Hb.
  apply obj_lookup_set_eq.
Qed.

(** After the restore [$set] the flag is not [true], and an enabled timestamp
    and an enabled actor are [null], under every configuration. *)
Lemma restore_clears (o : opts) (d : obj) :
  flagged o (Store.apply_set (restore_update o) d) = false /\
  (deletedAt o = true ->
   obj_get (Store.apply_set (restore_update o) d) (atKey o) = VNull) /\
  (deletedBy o = true ->
   obj_get (Store.apply_set (restore_update o) d) (byKey o) = VNull).
Proof.
  unfold flagged, Store.apply_set.
  rewrite !obj_get_assign by apply restore_update_nodup.
  split; [|split].
  - destruct (restore_update_flag_cases o) as [-> | ->]; reflexivity.
  - intros H. now rewrite restore_update_at.
  - intros H. now rewrite restore_update_by.
Qed.


(** Every stored document is kept by the static [restore], as it is or with
    the restore update applied. *)
Lemma restore_exec_kept (o : opts) (filter : obj) (db : Store.store) :
  Forall2 (fun d d' =>
             if Store.matches (obj_set filter (flagKey o) (VBool true)) d
             then d' = Store.apply_set (restore_update o) d else d' = d)
    db (snd (Store.exec o (restore o filter) db)).
Proof.
  rewrite restore_exec. cbn [snd].
  apply update_all_shape; intros d E; rewrite E; reflexivity.
Qed.

Lemma restore_exec_nomatch (o : opts) (filter : obj) (db : Store.store) :
  (forall d, In d db ->
             Store.matches (obj_set filter (flagKey o) (VBool true)) d = false) ->
  Store.exec o (restore o filter) db = (Store.UpdateWriteOpResult 0 0, db).
Proof.
  intros Hno. rewrite restore_exec.
  set (c := obj_set filter (flagKey o) (VBool true)) in *.
  assert (E1 : List.filter (Store.matches c) db = []).
  { clear - Hno. induction db as [|d r IH]; simpl; [reflexivity|].
    rewrite (Hno d (or_introl eq_refl)). apply IH.
    intros x Hx. apply Hno. now right. }
  rewrite E1. simpl. f_equal. unfold Store.update_all.
  clear - Hno. induction db as [|d r IH]; simpl; [reflexivity|].
  rewrite (Hno d (or_introl eq_refl)). f_equal. apply IH.
  intros x Hx. apply Hno. now right.
Qed.

(** C3. The static [restore(filter)] does not intersect the caller's filter
    with [flag == true]: the spread [{ ...filter, [deletedField]: true }]
    replaces a condition the caller gave on the flag field.  Under the
    default configuration, on the two sample users, the caller's filter
    [{ deleted: false }] selects no document whose flag is [true], the
    deleted user included; the static runs with the filter
    [{ deleted: true }], matches the deleted user, which the caller's filter
    does not select, restores it and reports one matched and one modified. *)
Theorem restore_replaces_flag_condition :
  (forall d, In d users ->
             Store.matches [("deleted", VBool false)] d && flagged default_opts d
             = false) /\
  Store.matches [("deleted", VBool false)] deleted_user = false /\
  _conditions (restore default_opts [("deleted", VBool false)])
  = [("deleted", VBool true)] /\
  Store.exec default_opts (restore default_opts [("deleted", VBool false)]) users
  = (Store.UpdateWriteOpResult 1 1,
     [active_user;
      [("_id", VNum 2); ("name", VStr "Deleted"); ("deleted", VBool false);
       ("deletedAt", VNull)]]).
Proof.
  split; [|repeat split].
  intros d [<-|[<-|[]]]; reflexivity.
Qed.


(* ------------------------------------------------------------------ *)
(** * The timestamp invariant *)

Lemma schema_lookup_add_eq (s : Schema) (k : string) (fld : SchemaField) :
  schema_lookup (schema_add s k fld) k = Some fld.
Proof.
  induction s as [|[k' f'] r IH]; simpl.
  - now rewrite String.eqb_refl.
  - destruct (String.eqb k' k) eqn:E; simpl; rewrite E; auto.
Qed.

Lemma schema_lookup_add_neq (s : Schema) (k k' : string) (fld : SchemaField) :
  k <> k' -> schema_lookup (schema_add s k fld) k' = schema_lookup s k'.
Proof.
  intros Hne. induction s as [|[k0 f0] r IH]; simpl.
  - destruct (String.eqb_spec k k'); [contradiction|reflexivity].
  - destruct (String.eqb_spec k0 k) as [->|Hk]; simpl.
    + destruct (String.eqb_spec k k'); [contradiction|reflexivity].
    + now rewrite IH.
Qed.














(* ------------------------------------------------------------------ *)
(** * Repeated assignment *)

Section AssignmentSequences.

Context {A : Type}.
Implicit Types (l w : list (string * A)) (k : string) (v : A).

Lemma al_set_set_eq l k v v' : al_set (al_set l k v) k v' = al_set l k v'.
Proof.
  induction l as [|[k0 v0] r IH]; simpl.
  - now rewrite String.eqb_refl.
  - destruct (String.eqb k0 k) eqn:E; simpl; rewrite E; [reflexivity|].
    now rewrite IH.
Qed.

Lemma al_mem_set_same l k v : al_mem (al_set l k v) k = true.
Proof.
  induction l as [|[k0 v0] r IH]; simpl.
  - now rewrite String.eqb_refl.
  - destruct (String.eqb k0 k) eqn:E; simpl; rewrite E; auto.
Qed.

Lemma al_mem_set_mono l k k' v :
  al_mem l k' = true -> al_mem (al_set l k v) k' = true.
Proof.
  induction l as [|[k0 v0] r IH]; simpl; [discriminate|].
  destruct (String.eqb k0 k) eqn:E; simpl; [auto|].
  destruct (String.eqb k0 k'); simpl; auto.
Qed.

(** Two assignments to different keys commute once the second key is
    there. *)
Lemma al_set_comm l k k' v v' :
  k <> k' -> al_mem l k' = true ->
  al_set (al_set l k v) k' v' = al_set (al_set l k' v') k v.
Proof.
  intros Hne. induction l as [|[k0 v0] r IH]; simpl; [discriminate|].
  destruct (String.eqb k0 k) eqn:E1, (String.eqb k0 k') eqn:E2;
    simpl; rewrite ?E1, ?E2; simpl; intros Hm.
  - apply String.eqb_eq in E1, E2. congruence.
  - reflexivity.
  - reflexivity.
  - now rewrite IH.
Qed.

Lemma al_sets_mem_mono w l k :
  al_mem l k = true -> al_mem (al_sets w l) k = true.
Proof.
  unfold al_sets. revert l.
  induction w as [|[k0 v0] r IH]; intros l H; simpl; [exact H|].
  apply IH. now apply al_mem_set_mono.
Qed.

Lemma al_sets_mem w l k :
  In k (map fst w) -> al_mem (al_sets w l) k = true.
Proof.
  unfold al_sets. revert l.
  induction w as [|[k0 v0] r IH]; intros l; simpl; [intros []|].
  intros [->|Hin].
  - apply (al_sets_mem_mono r). apply al_mem_set_same.
  - now apply IH.
Qed.

(** A final assignment to [k] makes an earlier one irrelevant, when the keys
    assigned in between are present already. *)
Lemma al_sets_absorb w l k v0 v :
  (forall k', In k' (map fst w) -> al_mem l k' = true) ->
  al_set (al_sets w (al_set l k v0)) k v = al_set (al_sets w l) k v.
Proof.
  unfold al_sets. revert l v0.
  induction w as [|[k1 v1] r IH]; intros l v0 Hw; simpl.
  - apply al_set_set_eq.
  - destruct (String.eqb_spec k k1) as [<-|Hk].
    + now rewrite al_set_set_eq.
    + rewrite al_set_comm by (auto; apply Hw; now left).
      apply IH. intros k' Hk'. apply al_mem_set_mono. apply Hw. now right.
Qed.

Lemma al_sets_snoc w l k v :
  al_sets (w ++ [(k, v)]) l = al_set (al_sets w l) k v.
Proof. unfold al_sets. now rewrite fold_left_app. Qed.

(** Running an assignment sequence a second time changes nothing. *)
Lemma al_sets_idempotent w l : al_sets w (al_sets w l) = al_sets w l.
Proof.
  revert l. induction w as [|[k v] r IH] using rev_ind; intros l;
    [reflexivity|].
  rewrite !al_sets_snoc.
  rewrite al_sets_absorb.
  - now rewrite IH.
  - intros k' Hk'. now apply al_sets_mem.
Qed.

End AssignmentSequences.

Lemma obj_set_al (o : obj) (k : string) (v : value) : obj_set o k v = al_set o k v.
Proof. induction o as [|[k0 v0] r IH]; simpl; [reflexivity|]. now rewrite IH. Qed.

Lemma obj_assign_al (a b : obj) : obj_assign a b = al_sets b a.
Proof.
  unfold obj_assign, al_sets. revert a.
  induction b as [|[k v] r IH]; intros a; simpl; [reflexivity|].
  now rewrite IH, obj_set_al.
Qed.

Lemma schema_add_al (s : Schema) (k : string) (fld : SchemaField) :
  schema_add s k fld = al_set s k fld.
Proof. induction s as [|[k0 f0] r IH]; simpl; [reflexivity|]. now rewrite IH. Qed.


Lemma add_fields_assign (o : opts) (s : Schema) :
  add_fields o s = al_sets (plugin_fields o) s.
Proof.
  unfold add_fields, plugin_fields, al_sets.
  destruct (deletedAt o), (deletedBy o); simpl; now rewrite ?schema_add_al.
Qed.


(** X2. The plugin's schema augmentation is idempotent: applied to a schema
    it has already augmented (a plugin registered twice), it declares the
    same paths in the same places, whatever the schema declared before and
    whatever the configured names. *)
Theorem add_fields_idempotent (o : opts) (s : Schema) :
  add_fields o (add_fields o s) = add_fields o s.
Proof. rewrite !add_fields_assign. apply al_sets_idempotent. Qed.

(* ------------------------------------------------------------------ *)
(** * What the plugin leaves alone *)

Lemma obj_has_set_mono (o : obj) (k k' : string) (v : value) :
  obj_has o k' = true -> obj_has (obj_set o k v) k' = true.
Proof.
  destruct (String.eqb_spec k k') as [->|Hne].
  - intros _. unfold obj_has. now rewrite obj_lookup_set_eq.
  - now rewrite obj_has_set_neq.
Qed.



(** X4. The schema augmentation declares the paths of the enabled features
    and touches no other: the declaration of every other path, the caller's
    own included, is what it was, and a disabled feature adds no path. *)
Theorem add_fields_frame (o : opts) (s : Schema) (k : string) :
  k <> flagKey o -> (deletedAt o = true -> k <> atKey o) ->
  (deletedBy o = true -> k <> byKey o) ->
  schema_lookup (add_fields o s) k = schema_lookup s k.
Proof.
  intros Hf Ha Hb. unfold add_fields.
  destruct (deletedAt o), (deletedBy o);
    try specialize (Ha eq_refl); try specialize (Hb eq_refl);
    now rewrite ?schema_lookup_add_neq by congruence.
Qed.

(** Witness for X4: with the default options the caller's [email] path is
    untouched and no [deletedBy] path appears. *)
Lemma add_fields_frame_witness :
  "deletedBy" <> flagKey default_opts /\
  schema_lookup (add_fields default_opts user_schema) "deletedBy" = None.
Proof.
  assert (H : "deletedBy" <> flagKey default_opts) by discriminate.
  split; [exact H|].
  rewrite (add_fields_frame default_opts user_schema "deletedBy" H);
    [reflexivity|discriminate|discriminate].
Defined.

(** X5. Whatever the schema declared before under these names: the flag path
    is declared as an indexed Boolean with default [false] (its key not being
    reused by an enabled timestamp or actor); an enabled timestamp path as a
    Date with default [null] (its key not being reused by an enabled actor);
    an enabled actor path with default [null], as an ObjectId referring to
    [User] when [deletedByType] is ["ObjectId"] and as a String for every
    other value of [deletedByType]. *)
Theorem add_fields_declares (o : opts) (s : Schema) :
  (timestamp_key_ok o -> actor_key_ok o ->
   schema_lookup (add_fields o s) (flagKey o)
   = Some {| f_type := TBoolean; f_default := VBool false;
             f_index := true; f_ref := None |}) /\
  (deletedAt o = true -> (deletedBy o = true -> byKey o <> atKey o) ->
   schema_lookup (add_fields o s) (atKey o)
   = Some {| f_type := TDate; f_default := VNull;
             f_index := false; f_ref := None |}) /\
  (deletedBy o = true ->
   schema_lookup (add_fields o s) (byKey o)
   = Some {| f_type := if String.eqb (deletedByType o) "ObjectId"
                       then TObjectId else TString;
             f_default := VNull; f_index := false;
             f_ref := if String.eqb (deletedByType o) "ObjectId"
                      then Some "User" else None |}).
Proof.
  unfold timestamp_key_ok, actor_key_ok, add_fields, deletedByFieldType.
  split; [|split].
  - intros Hat Hby.
    destruct (deletedAt o), (deletedBy o);
      try specialize (Hat eq_refl); try specialize (Hby eq_refl);
      rewrite ?schema_lookup_add_neq by assumption;
      apply schema_lookup_add_eq.
  - intros -> Hb.
    destruct (deletedBy o); try specialize (Hb eq_refl);
      rewrite ?schema_lookup_add_neq by assumption;
      apply schema_lookup_add_eq.
  - intros ->. rewrite schema_lookup_add_eq.
    now destruct (String.eqb (deletedByType o) "ObjectId").
Qed.

(** Witness for X5: [{ deletedBy: true, deletedByType: "String" }]. *)
Lemma add_fields_declares_witness :
  deletedBy (resolve string_actor_options) = true /\
  schema_lookup (add_fields (resolve string_actor_options) user_schema) "deletedBy"
  = Some {| f_type := TString; f_default := VNull;
            f_index := false; f_ref := None |}.
Proof.
  split; [reflexivity|].
  destruct (add_fields_declares (resolve string_actor_options) user_schema)
    as (_ & _ & T).
  exact (T eq_refl).
Defined.

(** X6. The delete statics hand the caller's options over: [deleteOne] and
    [deleteMany] unchanged; [findOneAndDelete] and [findByIdAndDelete] with
    [new] forced to [false], a caller's [new: true] included, and every other
    option as given. *)
Theorem delete_options_passthrough (o : opts) (now : Z) (c : DeleteCall) :
  match c with
  | CallDeleteOne _ os | CallDeleteMany _ os =>
      options (delete_query o now c) = os
  | CallFindOneAndDelete _ os | CallFindByIdAndDelete _ os =>
      obj_get (options (delete_query o now c)) "new" = VBool false /\
      (forall k, k <> "new" ->
                 obj_get (options (delete_query o now c)) k = obj_get os k) /\
      (forall k, obj_has os k = true ->
                 obj_has (options (delete_query o now c)) k = true)
  end.
Proof.
  destruct c; simpl; try reflexivity; unfold new_false;
    (split; [apply obj_get_set_eq|split]);
    intros k H; try (now apply obj_get_set_neq; congruence);
    now apply obj_has_set_mono.
Qed.

(** X7. When the timestamp is configured under the flag's own name and
    timestamps are enabled, the soft-delete update holds one property, the
    date: a soft-deleted document's flag field holds the time of the call and
    never reads [true]. *)
Theorem colliding_timestamp_key (o : opts) (now : Z) (d : obj) :
  deletedAt o = true -> atKey o = flagKey o ->
  soft_delete_update o now = [(flagKey o, VDate now)] /\
  obj_get (Store.apply_set (soft_delete_update o now) d) (flagKey o) = VDate now /\
  flagged o (Store.apply_set (soft_delete_update o now) d) = false.
Proof.
  intros Hat E.
  assert (H : obj_get (Store.apply_set (soft_delete_update o now) d) (flagKey o)
              = VDate now)
    by (rewrite <- E; now apply soft_deleted_timestamp).
  split; [|split; [exact H|]].
  - unfold soft_delete_update. rewrite Hat, obj_literal_two, E. simpl.
    now rewrite String.eqb_refl.
  - unfold flagged. now rewrite H.
Qed.

(** Witness for X7: [{ deletedAtField: "deleted" }]. *)
Lemma colliding_timestamp_key_witness :
  deletedAt (resolve colliding_options) = true /\
  atKey (resolve colliding_options) = flagKey (resolve colliding_options) /\
  soft_delete_update (resolve colliding_options) 2000 = [("deleted", VDate 2000)].
Proof.
  split; [reflexivity|]. split; [reflexivity|].
  destruct (colliding_timestamp_key (resolve colliding_options) 2000 []
              eq_refl eq_refl) as [T _].
  exact T.
Defined.

(* ------------------------------------------------------------------ *)
(** * Reads through the helpers and the hooks *)

Lemma obj_has_false_get (o : obj) (k : string) :
  obj_has o k = false -> obj_get o k = VUndef.
Proof. unfold obj_has, obj_get. now destruct (obj_lookup o k). Qed.

Lemma has_false_unconstrained (o : opts) (filter : obj) :
  merge_skips (flagKey o) = false ->
  obj_has filter (flagKey o) = false -> constrains o filter = false.
Proof.
  intros Hs H. rewrite constrains_own. unfold obj_has in H.
  destruct (obj_lookup filter (flagKey o)); [discriminate|].
  now apply merge_skips_inherited.
Qed.

Lemma active_returns (o : opts) (q q' : Query) :
  active o q = Ok q' ->
  name_truthy (deletedField o) = true /\ q' = where_ q [(flagKey o, ne_true)].
Proof.
  unfold active. destruct (name_truthy (deletedField o)); simpl;
    [|discriminate].
  intros H. injection H as <-. auto.
Qed.

Lemma deleted_returns (o : opts) (q q' : Query) :
  deleted o q = Ok q' ->
  name_truthy (deletedField o) = true /\ q' = where_ q [(flagKey o, VBool true)].
Proof.
  unfold deleted. destruct (name_truthy (deletedField o)); simpl;
    [|discriminate].
  intros H. injection H as <-. auto.
Qed.

(** The filter a helper leaves behind on a caller filter without the flag
    path, and that no hook changes it. *)
Lemma active_filter (o : opts) (q q' : Query) :
  merge_skips (flagKey o) = false ->
  obj_has (_conditions q) (flagKey o) = false -> active o q = Ok q' ->
  pre o q' = q' /\ op q' = op q /\
  forall d, Store.matches (_conditions q') d
            = Store.matches (_conditions q) d && negb (flagged o d).
Proof.
  intros Hs Hf H. destruct (active_returns o q q' H) as [Ht ->].
  split; [apply pre_after_helper; auto|].
  split; [reflexivity|]. intros d.
  rewrite where_ne_true_fresh by (auto using has_false_unconstrained).
  rewrite matches_set_fresh by assumption. now rewrite cond_sat_ne_true.
Qed.

Lemma deleted_filter (o : opts) (q q' : Query) :
  merge_skips (flagKey o) = false ->
  obj_has (_conditions q) (flagKey o) = false -> deleted o q = Ok q' ->
  pre o q' = q' /\ op q' = op q /\
  forall d, Store.matches (_conditions q') d
            = Store.matches (_conditions q) d && flagged o d.
Proof.
  intros Hs Hf H. destruct (deleted_returns o q q' H) as [Ht ->].
  split; [apply pre_after_helper; auto|].
  split; [reflexivity|]. intros d.
  rewrite where_true, matches_set_fresh by assumption.
  now rewrite cond_sat_true.
Qed.

Lemma default_filter (o : opts) (q : Query) :
  activeArchive o = Default -> name_truthy (deletedField o) = true ->
  merge_skips (flagKey o) = false ->
  hooked (op q) = true -> _includeDeleted q = false ->
  obj_has (_conditions q) (flagKey o) = false ->
  forall d, Store.matches (_conditions (pre o q)) d
            = Store.matches (_conditions q) d && negb (flagged o d).
Proof.
  intros Hd Ht Hs Hh Hi Hf d.
  destruct (pre_injects o q Hd Hh Hi Ht (has_false_unconstrained o _ Hs Hf) Hs)
    as [_ E].
  rewrite E, matches_set_fresh by assumption. now rewrite cond_sat_ne_true.
Qed.

Lemma exec_find (o : opts) (q : Query) (db : Store.store) :
  op q = find ->
  Store.exec o q db
  = (Store.DocsResult (List.filter (Store.matches (_conditions (pre o q))) db), db).
Proof.
  intros H. unfold Store.exec, Store.exec_op.
  destruct (pre_frame o q) as (-> & _). now rewrite H.
Qed.

Lemma exec_count (o : opts) (q : Query) (db : Store.store) :
  op q = countDocuments ->
  Store.exec o q db
  = (Store.CountResult
       (length (List.filter (Store.matches (_conditions (pre o q))) db)), db).
Proof.
  intros H. unfold Store.exec, Store.exec_op.
  destruct (pre_frame o q) as (-> & _). now rewrite H.
Qed.

Lemma filter_split_length (p r : obj -> bool) (db : list obj) :
  length (List.filter (fun d => p d && negb (r d)) db)
  + length (List.filter (fun d => p d && r d) db)
  = length (List.filter p db).
Proof.
  induction db as [|d l IH]; simpl; [reflexivity|].
  destruct (p d), (r d); simpl; lia.
Qed.

(** X8. Under every policy, for a filter without an entry for the flag field
    and a flag name that Mongoose's condition merge writes (no member of
    [Object.prototype] and none of [__proto__], [constructor], [prototype]):
    whenever [active()] and [deleted()] return on [find(filter)], the filter
    that [find(filter).active()] executes with selects exactly the stored
    documents the caller's filter selects whose flag is not [true], and the
    filter of [find(filter).deleted()] exactly those whose flag is [true];
    executing either leaves the collection unchanged. *)
Theorem helper_reads_any_policy
  (o : opts) (filter : obj) (db : Store.store) (qa qd : Query) :
  obj_has filter (flagKey o) = false ->
  merge_skips (flagKey o) = false ->
  active o (Model_find filter) = Ok qa ->
  deleted o (Model_find filter) = Ok qd ->
  (forall d, Store.matches (_conditions (pre o qa)) d
             = Store.matches filter d && negb (flagged o d)) /\
  (forall d, Store.matches (_conditions (pre o qd)) d
             = Store.matches filter d && flagged o d) /\
  snd (Store.exec o qa db) = db /\
  snd (Store.exec o qd db) = db.
Proof.
  intros Hf Hs Ha Hd.
  destruct (active_filter o (Model_find filter) qa Hs Hf Ha) as (Pa & Oa & Ma).
  destruct (deleted_filter o (Model_find filter) qd Hs Hf Hd) as (Pd & Od & Md).
  rewrite (exec_find o qa db Oa), (exec_find o qd db Od), Pa, Pd.
  auto.
Qed.

(** Witness for X8: policy [Scope]; the filter of [find().active()] selects
    the active sample user and not the deleted one. *)
Lemma helper_reads_any_policy_witness :
  obj_has [] (flagKey scope_opts) = false /\
  merge_skips (flagKey scope_opts) = false /\
  active scope_opts (Model_find []) = Ok (where_ (Model_find []) [("deleted", ne_true)]) /\
  deleted scope_opts (Model_find []) = Ok (where_ (Model_find []) [("deleted", VBool true)]) /\
  Store.matches
    (_conditions (pre scope_opts (where_ (Model_find []) [("deleted", ne_true)])))
    active_user = true /\
  Store.matches
    (_conditions (pre scope_opts (where_ (Model_find []) [("deleted", ne_true)])))
    deleted_user = false.
Proof.
  do 4 (split; [reflexivity|]).
  destruct (helper_reads_any_policy scope_opts [] users _ _
              eq_refl eq_refl eq_refl eq_refl) as [T _].
  split; [exact (T active_user)|exact (T deleted_user)].
Defined.

(** X9. Under every policy, for a filter without an entry for the flag field
    and a flag name that Mongoose's condition merge writes (no member of
    [Object.prototype] and none of [__proto__], [constructor], [prototype]),
    whenever [active()] and [deleted()] return on [countDocuments(filter)],
    the counts add up: [countDocuments(filter).active()] plus
    [countDocuments(filter).deleted()] is
    [countDocuments(filter).withDeleted()]; the unmodified
    [countDocuments(filter)] is the active count under [Default] and the
    total under [Scope] and [All]. *)
Theorem counts_partition
  (o : opts) (filter : obj) (db : Store.store) (qa qd : Query) :
  obj_has filter (flagKey o) = false ->
  merge_skips (flagKey o) = false ->
  active o (Model_countDocuments filter) = Ok qa ->
  deleted o (Model_countDocuments filter) = Ok qd ->
  exists a d,
    fst (Store.exec o qa db) = Store.CountResult a /\
    fst (Store.exec o qd db) = Store.CountResult d /\
    fst (Store.exec o (withDeleted (Model_countDocuments filter)) db)
    = Store.CountResult (a + d) /\
    (activeArchive o = Default ->
     fst (Store.exec o (Model_countDocuments filter) db) = Store.CountResult a) /\
    (activeArchive o <> Default ->
     fst (Store.exec o (Model_countDocuments filter) db) = Store.CountResult (a + d)).
Proof.
  intros Hf Hs Ha Hd.
  destruct (active_filter o (Model_countDocuments filter) qa Hs Hf Ha) as (Pa & Oa & Ma).
  destruct (deleted_filter o (Model_countDocuments filter) qd Hs Hf Hd) as (Pd & Od & Md).
  destruct (active_returns o _ _ Ha) as [Ht _].
  exists (length (List.filter (fun d => Store.matches filter d && negb (flagged o d)) db)),
         (length (List.filter (fun d => Store.matches filter d && flagged o d) db)).
  rewrite (exec_count o qa db Oa), (exec_count o qd db Od), Pa, Pd.
  rewrite !exec_count by reflexivity. cbn [fst].
  rewrite pre_withDeleted. cbn [_conditions withDeleted Model_countDocuments mkQuery].
  rewrite (filter_split_length (Store.matches filter) (flagged o) db).
  split; [|split; [|split; [|split]]].
  - f_equal. f_equal. apply filter_ext. exact Ma.
  - f_equal. f_equal. apply filter_ext. exact Md.
  - reflexivity.
  - intros Hdef. f_equal. f_equal. apply filter_ext.
    now apply default_filter.
  - intros Hnd. now rewrite pre_not_default.
Qed.

(** Witness for X9: the default configuration and the two sample users: one
    active, one deleted, two in all. *)
Lemma counts_partition_witness :
  obj_has [] (flagKey default_opts) = false /\
  merge_skips (flagKey default_opts) = false /\
  exists a d,
    fst (Store.exec default_opts
           (where_ (Model_countDocuments []) [("deleted", ne_true)]) users)
    = Store.CountResult a /\
    fst (Store.exec default_opts
           (where_ (Model_countDocuments []) [("deleted", VBool true)]) users)
    = Store.CountResult d /\
    fst (Store.exec default_opts (withDeleted (Model_countDocuments [])) users)
    = Store.CountResult (a + d).
Proof.
  split; [reflexivity|]. split; [reflexivity|].
  destruct (counts_partition default_opts [] users _ _
              eq_refl eq_refl eq_refl eq_refl)
    as (a & d & H1 & H2 & H3 & _).
  exists a, d. auto.
Defined.

(** X10. Under policy [Default], with a truthy flag name that Mongoose's
    condition merge writes (no member of [Object.prototype] and none of
    [__proto__], [constructor], [prototype]) and a filter without an entry
    for the flag field, the injected condition is "not [true]", not
    "[false]": the filter [find(filter)] executes with selects exactly the
    stored documents the caller's filter selects whose flag is not [true],
    and [countDocuments(filter)] counts them; so a stored document whose flag
    field is missing (a record written before the plugin was installed),
    [null], [false] or anything but [true] is selected whenever the caller's
    filter selects it. *)
Theorem legacy_documents_visible
  (o : opts) (filter : obj) (db : Store.store) (d : obj) :
  activeArchive o = Default -> name_truthy (deletedField o) = true ->
  merge_skips (flagKey o) = false ->
  obj_has filter (flagKey o) = false ->
  (forall x, Store.matches (_conditions (pre o (Model_find filter))) x
             = Store.matches filter x && negb (flagged o x)) /\
  fst (Store.exec o (Model_countDocuments filter) db)
  = Store.CountResult
      (length (List.filter
                 (fun x => Store.matches filter x && negb (flagged o x)) db)) /\
  (Store.matches filter d = true -> obj_get d (flagKey o) <> VBool true ->
   Store.matches (_conditions (pre o (Model_find filter))) d = true) /\
  (obj_has d (flagKey o) = false -> obj_get d (flagKey o) <> VBool true).
Proof.
  intros Hd Ht Hs Hf.
  pose proof (default_filter o (Model_find filter) Hd Ht Hs eq_refl eq_refl Hf)
    as Hsel.
  split; [exact Hsel|]. split; [|split].
  - rewrite exec_count by reflexivity. cbn [fst]. f_equal. f_equal.
    apply filter_ext.
    exact (default_filter o (Model_countDocuments filter) Hd Ht Hs
             eq_refl eq_refl Hf).
  - intros Hm Hne. rewrite Hsel. cbn [Model_find mkQuery _conditions].
    rewrite Hm. simpl. apply negb_true_iff.
    destruct (flagged o d) eqn:E; [|reflexivity].
    apply eqb_true_iff in E. contradiction.
  - intros H. rewrite (obj_has_false_get _ _ H). discriminate.
Qed.

(** Witness for X10: a stored user without the [deleted] field is selected
    and counted, the deleted user is not. *)
Lemma legacy_documents_visible_witness :
  activeArchive default_opts = Default /\
  name_truthy (deletedField default_opts) = true /\
  merge_skips (flagKey default_opts) = false /\
  obj_has [] (flagKey default_opts) = false /\
  obj_has legacy_user (flagKey default_opts) = false /\
  fst (Store.exec default_opts (Model_countDocuments [])
         [deleted_user; legacy_user])
  = Store.CountResult 1 /\
  Store.matches (_conditions (pre default_opts (Model_find []))) legacy_user
  = true.
Proof.
  do 5 (split; [reflexivity|]).
  destruct (legacy_documents_visible default_opts [] [deleted_user; legacy_user]
              legacy_user eq_refl eq_refl eq_refl eq_refl) as (_ & T1 & T2 & T3).
  split; [exact T1|].
  apply T2; [reflexivity|]. apply T3. reflexivity.
Defined.

(* ------------------------------------------------------------------ *)
(** * Sequences of operations on a collection *)

Lemma filter_all (p : obj -> bool) (db : list obj) :
  (forall d, p d = true) -> List.filter p db = db.
Proof.
  intros H. induction db as [|d l IH]; simpl; [reflexivity|].
  now rewrite H, IH.
Qed.

Lemma Forall2_in_r (R : obj -> obj -> Prop) (l l' : list obj) (y : obj) :
  Forall2 R l l' -> In y l' -> exists x, In x l /\ R x y.
Proof.
  intros H. induction H as [|a b r r' Hab Hr IH]; simpl; [intros []|].
  intros [<-|Hin].
  - exists a. auto.
  - destruct (IH Hin) as (x & Hx & HR). exists x. auto.
Qed.


Lemma exec_deleteMany (o : opts) (now : Z) (filter options : obj) (db : Store.store) :
  snd (Store.exec o (deleteMany o now filter options) db)
  = Store.update_all filter (soft_delete_update o now) db.
Proof.
  now rewrite (exec_updateMany o (deleteMany o now filter options)
                 (soft_delete_update o now) db eq_refl eq_refl).
Qed.

(** After [deleteMany(filter)], the documents whose flag is not [true] are
    those the filter did not select and whose flag was not [true]. *)
Lemma unflagged_after_delete
  (o : opts) (now : Z) (filter : obj) (db : Store.store) :
  timestamp_key_ok o ->
  length (List.filter (fun d => negb (flagged o d))
            (Store.update_all filter (soft_delete_update o now) db))
  = length (List.filter
              (fun d => negb (Store.matches filter d) && negb (flagged o d)) db).
Proof.
  intros Hok. unfold Store.update_all.
  induction db as [|d r IH]; simpl; [reflexivity|].
  destruct (Store.matches filter d) eqn:E; simpl.
  - assert (Hf : flagged o (Store.apply_set (soft_delete_update o now) d) = true)
      by (apply eqb_true_iff; now apply soft_deleted_fields).
    rewrite Hf. simpl. exact IH.
  - destruct (flagged o d); simpl; [exact IH|now rewrite IH].
Qed.

(** X11. When the timestamp is not configured under the flag's own name:
    [deleteMany(filter)] keeps the collection's size; every selected document
    is still there with its flag [true], every other document as it was; and
    [countDocuments().withDeleted()] afterwards counts the whole collection.
    Under policy [Default], with a truthy flag name that Mongoose's condition
    merge writes (no member of [Object.prototype] and none of [__proto__],
    [constructor], [prototype]), [countDocuments()] afterwards counts exactly
    the documents that the delete did not select and whose flag was not
    [true] before, and these are the stored documents the filter of a plain
    [find()] selects. *)
Theorem soft_deleted_hidden_not_removed
  (o : opts) (now : Z) (filter options : obj) (db : Store.store) :
  timestamp_key_ok o ->
  let db' := snd (Store.exec o (deleteMany o now filter options) db) in
  length db' = length db /\
  Forall2 (fun d d' => if Store.matches filter d
                       then flagged o d' = true else d' = d) db db' /\
  fst (Store.exec o (withDeleted (Model_countDocuments [])) db')
  = Store.CountResult (length db) /\
  (activeArchive o = Default -> name_truthy (deletedField o) = true ->
   merge_skips (flagKey o) = false ->
   fst (Store.exec o (Model_countDocuments []) db')
   = Store.CountResult
       (length (List.filter
                  (fun d => negb (Store.matches filter d) && negb (flagged o d))
                  db)) /\
   forall d,
     In d db' /\ Store.matches (_conditions (pre o (Model_find []))) d = true <->
     In d db /\ Store.matches filter d = false /\ flagged o d = false).
Proof.
  intros Hok db'. unfold db'. rewrite exec_deleteMany.
  assert (Hshape : Forall2 (fun d d' => if Store.matches filter d
                                        then flagged o d' = true else d' = d)
                     db (Store.update_all filter (soft_delete_update o now) db)).
  { apply update_all_shape; intros d E; rewrite E; [reflexivity|].
    apply eqb_true_iff. now apply soft_deleted_fields. }
  assert (Hlen : length (Store.update_all filter (soft_delete_update o now) db)
                 = length db)
    by (unfold Store.update_all; apply length_map).
  split; [exact Hlen|].
  split; [exact Hshape|]. split.
  - rewrite exec_count by reflexivity. rewrite pre_withDeleted. cbn [fst].
    f_equal. rewrite <- Hlen. f_equal. now apply filter_all.
  - intros Hd Ht Hs.
    assert (Hsel : forall q, hooked (op q) = true -> _includeDeleted q = false ->
                     _conditions q = [] ->
                     forall d, Store.matches (_conditions (pre o q)) d
                               = negb (flagged o d)).
    { intros q Hh Hi Hc d.
      rewrite (default_filter o q Hd Ht Hs Hh Hi) by now rewrite Hc.
      now rewrite Hc. }
    split.
    + rewrite exec_count by reflexivity. cbn [fst]. f_equal.
      rewrite <- (unflagged_after_delete o now filter db Hok). f_equal.
      apply filter_ext. intros d. now apply Hsel.
    + intros d. rewrite (Hsel (Model_find []) eq_refl eq_refl eq_refl).
      rewrite negb_true_iff. split.
      * intros [Hin Hf].
        destruct (Forall2_in_r _ _ _ d Hshape Hin) as (x & Hx & HR).
        destruct (Store.matches filter x) eqn:E; [congruence|].
        subst d. auto.
      * intros (Hin & Hm & Hf). split; [|exact Hf].
        unfold Store.update_all. apply in_map_iff. exists d.
        now rewrite Hm.
Qed.

(** Witness for X11: [deleteMany({})] on the two sample users under the
    default configuration keeps both. *)
Lemma soft_deleted_hidden_not_removed_witness :
  timestamp_key_ok default_opts /\
  length (snd (Store.exec default_opts (deleteMany default_opts 2000 [] []) users))
  = length users.
Proof.
  assert (H : timestamp_key_ok default_opts) by (intros _; discriminate).
  split; [exact H|].
  destruct (soft_deleted_hidden_not_removed default_opts 2000 [] [] users H)
    as [T _].
  exact T.
Defined.

(** X12. The static [restore] is idempotent on the collection: run a second
    time with the same filter it matches nothing, reports zero matched and
    zero modified, and leaves the collection as the first call left it. *)
Theorem restore_twice_noop (o : opts) (filter : obj) (db : Store.store) :
  Store.exec o (restore o filter) (snd (Store.exec o (restore o filter) db))
  = (Store.UpdateWriteOpResult 0 0, snd (Store.exec o (restore o filter) db)).
Proof.
  apply restore_exec_nomatch. intros d' Hin.
  destruct (Forall2_in_r _ _ _ d' (restore_exec_kept o filter db) Hin)
    as (d & Hd & HR).
  cbn beta in HR.
  destruct (Store.matches (obj_set filter (flagKey o) (VBool true)) d') eqn:E';
    [|reflexivity].
  pose proof (matches_set_sat _ _ _ _ E') as Hf. rewrite cond_sat_true in Hf.
  fold (flagged o d') in Hf.
  destruct (Store.matches (obj_set filter (flagKey o) (VBool true)) d) eqn:E.
  - subst d'. destruct (restore_clears o d) as [Hc _]. congruence.
  - subst d'. congruence.
Qed.

(** Witness for X12: the default configuration and the two sample users. *)
Lemma restore_twice_noop_witness :
  fst (Store.exec default_opts (restore default_opts [])
         (snd (Store.exec default_opts (restore default_opts []) users)))
  = Store.UpdateWriteOpResult 0 0.
Proof.
  exact (f_equal fst (restore_twice_noop default_opts [] users)).
Defined.







(* ------------------------------------------------------------------ *)
(** * Hooks and helpers run again *)

Lemma match_stage_detected (o : opts) (rest : list value) :
  hasDeletedFilter o (match_stage o :: rest) = true.
Proof.
  unfold match_stage. rewrite hasDeletedFilter_match, constrains_own.
  simpl. now rewrite String.eqb_refl.
Qed.

Lemma pre_aggregate_cases (o : opts) (a : Aggregate) :
  pre_aggregate o a = a \/
  (pre_aggregate o a
   = {| _pipeline := match_stage o :: _pipeline a;
        agg_includeDeleted := agg_includeDeleted a |} /\
   activeArchive o = Default /\ agg_includeDeleted a = false /\
   name_truthy (deletedField o) = true).
Proof.
  unfold pre_aggregate, aggregateMiddleware.
  destruct (activeArchive o); simpl; auto.
  destruct (agg_includeDeleted a); auto.
  destruct (name_truthy (deletedField o)); simpl; auto.
  destruct (hasDeletedFilter o (_pipeline a)); simpl; auto.
Qed.

(** X14. Under every configuration the aggregate hook adds at most its one
    stage in front and keeps the caller's stages, in order, behind it; it
    keeps the include-deleted flag; and it is idempotent: run on its own
    result it finds its stage in first place and prepends nothing more. *)
Theorem aggregate_hook_idempotent (o : opts) (a : Aggregate) :
  (_pipeline (pre_aggregate o a) = _pipeline a \/
   _pipeline (pre_aggregate o a) = match_stage o :: _pipeline a) /\
  agg_includeDeleted (pre_aggregate o a) = agg_includeDeleted a /\
  pre_aggregate o (pre_aggregate o a) = pre_aggregate o a.
Proof.
  destruct (pre_aggregate_cases o a) as [E|(E & Hd & Hi & Ht)].
  - rewrite !E. auto.
  - rewrite E. cbn [_pipeline agg_includeDeleted].
    split; [now right|]. split; [reflexivity|].
    unfold pre_aggregate, aggregateMiddleware.
    cbn [_pipeline agg_includeDeleted].
    now rewrite Hd, Hi, Ht, match_stage_detected.
Qed.

Lemma merge_entry_skipped (t : obj) (k : string) (v : value) :
  merge_skips k = true -> merge_entry t (k, v) = t.
Proof. intros Hs. unfold merge_entry. cbn [fst snd]. now rewrite Hs. Qed.

Lemma merge_entry_ne_true (t : obj) (k : string) :
  merge_skips k = false ->
  exists b, merge_entry t (k, ne_true)
            = obj_set t k (VObj (obj_set b "$ne" (VBool true))).
Proof.
  intros Hs. unfold merge_entry. cbn [fst snd]. rewrite Hs.
  destruct (is_nullish (obj_get t k)).
  - exists []. reflexivity.
  - exists (as_obj (obj_get t k)). now rewrite merge_cond_ne_true.
Qed.

Lemma merge_entry_ne_true_twice (t : obj) (k : string) :
  merge_entry (merge_entry t (k, ne_true)) (k, ne_true)
  = merge_entry t (k, ne_true).
Proof.
  destruct (merge_skips k) eqn:Hs;
    [now rewrite !merge_entry_skipped by assumption|].
  destruct (merge_entry_ne_true t k Hs) as [b ->].
  unfold merge_entry. cbn [fst snd]. rewrite Hs, obj_get_set_eq. cbn [is_nullish].
  rewrite merge_cond_ne_true. cbn [as_obj].
  now rewrite !obj_set_set_eq.
Qed.

Lemma merge_entry_true_twice (t : obj) (k : string) :
  merge_entry (merge_entry t (k, VBool true)) (k, VBool true)
  = merge_entry t (k, VBool true).
Proof.
  destruct (merge_skips k) eqn:Hs;
    [now rewrite !merge_entry_skipped by assumption|].
  assert (E : forall t', merge_entry t' (k, VBool true) = obj_set t' k (VBool true)).
  { intros t'. unfold merge_entry. cbn [fst snd]. rewrite Hs. cbn [merge_cond].
    now destruct (is_nullish (obj_get t' k)). }
  rewrite !E. apply obj_set_set_eq.
Qed.

(** X15. Calling a helper twice is calling it once: [active()] on the query
    [active()] returned gives that query back, whatever condition the
    caller's filter already held on the flag, and so does [deleted()];
    [withDeleted()] is idempotent and commutes with both. *)
Theorem helpers_idempotent (o : opts) (q : Query) :
  (forall q1, active o q = Ok q1 -> active o q1 = Ok q1) /\
  (forall q1, deleted o q = Ok q1 -> deleted o q1 = Ok q1) /\
  withDeleted (withDeleted q) = withDeleted q /\
  (forall q1, active o q = Ok q1 -> active o (withDeleted q) = Ok (withDeleted q1)) /\
  (forall q1, deleted o q = Ok q1 -> deleted o (withDeleted q) = Ok (withDeleted q1)).
Proof.
  split; [|split; [|split; [reflexivity|split]]].
  - intros q1 H. destruct (active_returns o q q1 H) as [Ht ->].
    unfold active. rewrite Ht. cbn [negb]. f_equal.
    unfold where_. cbn [op _conditions _update options _includeDeleted fold_left].
    now rewrite merge_entry_ne_true_twice.
  - intros q1 H. destruct (deleted_returns o q q1 H) as [Ht ->].
    unfold deleted. rewrite Ht. cbn [negb]. f_equal.
    unfold where_. cbn [op _conditions _update options _includeDeleted fold_left].
    now rewrite merge_entry_true_twice.
  - intros q1 H. destruct (active_returns o q q1 H) as [Ht ->].
    unfold active. now rewrite Ht.
  - intros q1 H. destruct (deleted_returns o q q1 H) as [Ht ->].
    unfold deleted. now rewrite Ht.
Qed.

(** Witness for X15: [find({ deleted: { $in: [true, false] } }).active()]
    under the default configuration. *)
Lemma helpers_idempotent_witness :
  exists q1,
    active default_opts
      (Model_find [("deleted", VObj [("$in", VArr [VBool true; VBool false])])])
    = Ok q1 /\
    active default_opts q1 = Ok q1 /\
    _conditions q1
    = [("deleted", VObj [("$in", VArr [VBool true; VBool false]);
                         ("$ne", VBool true)])].
Proof.
  eexists. split; [reflexivity|].
  destruct (helpers_idempotent default_opts
              (Model_find [("deleted", VObj [("$in", VArr [VBool true; VBool false])])]))
    as [T _].
  split; [apply T; reflexivity|reflexivity].
Defined.

(** X16. Under policies [Scope] and [All] no hook runs on the rewritten
    find-and-delete: [findOneAndDelete] and [findByIdAndDelete] execute with
    the caller's filter as it is, so the first document it selects is
    returned as it was and soft-deleted, also when its flag is already
    [true]. *)
Theorem find_and_delete_open_policies
  (o : opts) (now : Z) (c : DeleteCall) (db1 db2 : Store.store) (d : obj) :
  activeArchive o <> Default -> is_find_and_delete c = true ->
  (forall x, In x db1 -> Store.matches (call_filter c) x = false) ->
  Store.matches (call_filter c) d = true ->
  Store.exec o (delete_query o now c) (db1 ++ d :: db2)
  = (Store.DocResult (VObj d),
     db1 ++ Store.apply_set (soft_delete_update o now) d :: db2).
Proof.
  intros Hp Hc Hno Hd. unfold Store.exec.
  rewrite pre_not_default by assumption.
  destruct (delete_query_shape o now c) as (Hop & Hup & Hcond).
  assert (Hnew : obj_get (options (delete_query o now c)) "new" = VBool false)
    by (destruct c; try discriminate; apply obj_get_set_eq).
  unfold Store.exec_op. rewrite Hop, Hup, Hcond, Hnew.
  change (Store.set_part (VObj [("$set", VObj (soft_delete_update o now))]))
    with (soft_delete_update o now).
  destruct c; try discriminate;
    now rewrite (update_first_at _ (soft_delete_update o now) db1 db2 d Hno Hd).
Qed.

(** Witness for X16: policy [Scope]; [findByIdAndDelete] of the deleted
    sample user returns it and overwrites its timestamp. *)
Lemma find_and_delete_open_policies_witness :
  activeArchive scope_opts <> Default /\
  Store.matches (call_filter (CallFindByIdAndDelete (VNum 2) [])) deleted_user = true /\
  Store.exec scope_opts (findByIdAndDelete scope_opts 2000 (VNum 2) []) users
  = (Store.DocResult (VObj deleted_user),
     [active_user;
      [("_id", VNum 2); ("name", VStr "Deleted"); ("deleted", VBool true);
       ("deletedAt", VDate 2000)]]).
Proof.
  assert (H : activeArchive scope_opts <> Default) by discriminate.
  split; [exact H|]. split; [reflexivity|].
  apply (find_and_delete_open_policies scope_opts 2000
           (CallFindByIdAndDelete (VNum 2) []) [active_user] [] deleted_user
           H eq_refl).
  - intros x [<-|[]]. reflexivity.
  - reflexivity.
Defined.

(* ------------------------------------------------------------------ *)
(** * What writes and filters keep *)

Lemma obj_has_assign_mono (a b : obj) (k : string) :
  obj_has a k = true -> obj_has (obj_assign a b) k = true.
Proof.
  unfold obj_assign. revert a.
  induction b as [|[k0 v0] r IH]; intros a H; simpl; [exact H|].
  apply IH. now apply obj_has_set_mono.
Qed.

Lemma soft_delete_other (o : opts) (now : Z) (d : obj) (k : string) :
  k <> flagKey o -> (deletedAt o = true -> k <> atKey o) ->
  obj_get (Store.apply_set (soft_delete_update o now) d) k = obj_get d k.
Proof.
  intros Hf Ha. rewrite apply_soft_delete.
  destruct (deletedAt o); try specialize (Ha eq_refl);
    now rewrite ?obj_get_set_neq by congruence.
Qed.

(** X17. A soft delete keeps the record's data: after any delete-class call,
    under every configuration, every stored document reads as before at
    every field other than the flag and the enabled timestamp, and has lost
    no property. *)
Theorem delete_keeps_data
  (o : opts) (now : Z) (c : DeleteCall) (db : Store.store) :
  Forall2 (fun d d' =>
             (forall k, k <> flagKey o -> (deletedAt o = true -> k <> atKey o) ->
                        obj_get d' k = obj_get d k) /\
             (forall k, obj_has d k = true -> obj_has d' k = true))
    db (snd (Store.exec o (delete_query o now c) db)).
Proof.
  destruct (delete_query_shape o now c) as (_ & Hup & _).
  eapply Forall2_impl; [|apply (exec_update_shape o _ _ db Hup)].
  intros d d' [->|[_ ->]]; [auto|]. split.
  - intros k Hf Ha. now apply soft_delete_other.
  - intros k H. now apply obj_has_assign_mono.
Qed.


Lemma merge_entry_other (t : obj) (k k' : string) (v : value) :
  k <> k' ->
  obj_get (merge_entry t (k, v)) k' = obj_get t k' /\
  (obj_has t k' = true -> obj_has (merge_entry t (k, v)) k' = true).
Proof.
  intros H. unfold merge_entry. cbn [fst snd].
  destruct (merge_skips k); [auto|]. split.
  - now apply obj_get_set_neq.
  - now apply obj_has_set_mono.
Qed.

Lemma pre_is (o : opts) (q : Query) :
  pre o q = q \/ pre o q = where_ q [(flagKey o, ne_true)].
Proof.
  unfold pre, queryMiddleware.
  destruct (ActiveArchive_eqb (activeArchive o) Default && hooked (op q)); auto.
  destruct (_includeDeleted q); auto.
  destruct (negb (name_truthy (deletedField o))); auto.
  destruct (reads_undefined (getFilter q) (flagKey o)); auto.
Qed.

(** X19. Helpers and hooks compose with the caller's filter: [active],
    [deleted] and the read middleware leave the condition on every path
    other than the flag's as the caller wrote it, drop no path, and change
    neither the operation, nor the update, nor the options. *)
Theorem filter_frame (o : opts) (q : Query) (k : string) :
  k <> flagKey o ->
  (obj_get (_conditions (pre o q)) k = obj_get (_conditions q) k /\
   (obj_has (_conditions q) k = true ->
    obj_has (_conditions (pre o q)) k = true)) /\
  (forall q', active o q = Ok q' \/ deleted o q = Ok q' ->
     obj_get (_conditions q') k = obj_get (_conditions q) k /\
     (obj_has (_conditions q) k = true -> obj_has (_conditions q') k = true) /\
     op q' = op q /\ _update q' = _update q /\ options q' = options q /\
     _includeDeleted q' = _includeDeleted q).
Proof.
  intros Hk. assert (Hk' : flagKey o <> k) by congruence. split.
  - destruct (pre_is o q) as [->| ->]; [auto|].
    apply (merge_entry_other (_conditions q) (flagKey o) k ne_true Hk').
  - intros q' [H|H].
    + destruct (active_returns o q q' H) as [_ ->].
      destruct (merge_entry_other (_conditions q) (flagKey o) k ne_true Hk').
      repeat split; auto.
    + destruct (deleted_returns o q q' H) as [_ ->].
      destruct (merge_entry_other (_conditions q) (flagKey o) k (VBool true) Hk').
      repeat split; auto.
Qed.

(** Witness for X19: [find({ name: "Active" })] under the default
    configuration keeps its condition on [name]. *)
Lemma filter_frame_witness :
  "name" <> flagKey default_opts /\
  obj_get (_conditions (pre default_opts (Model_find [("name", VStr "Active")])))
    "name" = VStr "Active".
Proof.
  assert (H : "name" <> flagKey default_opts) by discriminate.
  split; [exact H|].
  destruct (filter_frame default_opts (Model_find [("name", VStr "Active")])
              "name" H) as [[T _] _].
  exact T.
Defined.

(** X20. The helpers raise only for a flag name the caller passed
    explicitly as the empty string or [undefined]: with no [deletedField]
    option, or with a non-empty one, [active] and [deleted] return for every
    query, and otherwise both raise for every query. *)
Theorem helpers_return_iff_name_given (options : ParanoiaOptions) (q : Query) :
  ((exists q', active (resolve options) q = Ok q') <->
   (o_deletedField options = None \/
    exists s, o_deletedField options = Some (Some s) /\ s <> "")) /\
  ((exists q', deleted (resolve options) q = Ok q') <->
   (exists q', active (resolve options) q = Ok q')).
Proof.
  assert (Ht : name_truthy (deletedField (resolve options)) = true <->
               (o_deletedField options = None \/
                exists s, o_deletedField options = Some (Some s) /\ s <> "")).
  { unfold resolve. cbn [deletedField].
    destruct (o_deletedField options) as [[s|]|]; simpl.
    - destruct (String.eqb_spec s ""); split.
      + discriminate.
      + intros [H|(s' & H & Hs)]; [discriminate|]. congruence.
      + intros _. right. exists s. auto.
      + reflexivity.
    - split; [discriminate|].
      intros [H|(s & H & _)]; discriminate.
    - split; [now left|reflexivity]. }
  assert (Ha : (exists q', active (resolve options) q = Ok q') <->
               name_truthy (deletedField (resolve options)) = true).
  { unfold active.
    destruct (name_truthy (deletedField (resolve options))); simpl; split;
      try reflexivity; try discriminate.
    - intros _. eexists. reflexivity.
    - intros [q' H]. discriminate. }
  assert (Hd : (exists q', deleted (resolve options) q = Ok q') <->
               name_truthy (deletedField (resolve options)) = true).
  { unfold deleted.
    destruct (name_truthy (deletedField (resolve options))); simpl; split;
      try reflexivity; try discriminate.
    - intros _. eexists. reflexivity.
    - intros [q' H]. discriminate. }
  split.
  - rewrite Ha. exact Ht.
  - rewrite Ha, Hd. reflexivity.
Qed.

Lemma update_first_split (f u : obj) (db : Store.store) :
  (Store.update_first f u db = (None, db) /\
   forall d, In d db -> Store.matches f d = false) \/
  exists db1 d db2,
    db = db1 ++ d :: db2 /\
    (forall x, In x db1 -> Store.matches f x = false) /\
    Store.matches f d = true /\
    Store.update_first f u db = (Some d, db1 ++ Store.apply_set u d :: db2).
Proof.
  induction db as [|x r IH]; simpl.
  - left. split; [reflexivity|intros d []].
  - destruct (Store.matches f x) eqn:E.
    + right. exists [], x, r. repeat split; auto. intros y [].
    + destruct IH as [[-> Hno]|(db1 & d & db2 & -> & Hno & Hd & ->)].
      * left. split; [reflexivity|]. intros d [<-|Hin]; auto.
      * right. exists (x :: db1), d, db2. repeat split; auto.
        intros y [<-|Hin]; auto.
Qed.

(** X21. The single-document deletes touch one document at most:
    [deleteOne], [findOneAndDelete] and [findByIdAndDelete] either leave the
    collection as it is (nothing matches the executed filter), or soft-delete
    the first document the executed filter selects and leave every other
    document, later matches included, as it is. *)
Theorem single_delete_touches_one
  (o : opts) (now : Z) (c : DeleteCall) (db : Store.store) :
  (forall f os, c <> CallDeleteMany f os) ->
  let q := delete_query o now c in
  (snd (Store.exec o q db) = db /\
   forall d, In d db -> Store.matches (_conditions (pre o q)) d = false) \/
  exists db1 d db2,
    db = db1 ++ d :: db2 /\
    (forall x, In x db1 -> Store.matches (_conditions (pre o q)) x = false) /\
    Store.matches (_conditions (pre o q)) d = true /\
    snd (Store.exec o q db)
    = db1 ++ Store.apply_set (soft_delete_update o now) d :: db2.
Proof.
  intros Hc q.
  destruct (delete_query_shape o now c) as (Hop & Hup & _). fold q in Hop, Hup.
  destruct (pre_frame o q) as (P1 & P2 & _).
  assert (Hsnd : snd (Store.exec o q db)
                 = snd (Store.update_first (_conditions (pre o q))
                          (soft_delete_update o now) db)).
  { unfold Store.exec, Store.exec_op. rewrite P1, P2, Hop, Hup.
    change (Store.set_part (VObj [("$set", VObj (soft_delete_update o now))]))
      with (soft_delete_update o now).
    destruct c as [f os|f os|f os|id os];
      try (exfalso; now apply (Hc f os));
      destruct (Store.update_first _ _ db) as [[x|] db']; reflexivity. }
  rewrite Hsnd.
  destruct (update_first_split (_conditions (pre o q))
              (soft_delete_update o now) db)
    as [[-> Hno]|(db1 & d & db2 & E & Hno & Hd & ->)].
  - left. auto.
  - right. exists db1, d, db2. auto.
Qed.

(** Witness for X21: [deleteOne({})] on two active users soft-deletes the
    first only. *)
Lemma single_delete_touches_one_witness :
  (forall f os, CallDeleteOne [] [] <> CallDeleteMany f os) /\
  snd (Store.exec default_opts (deleteOne default_opts 2000 [] [])
         [active_user; active_user])
  = [Store.apply_set (soft_delete_update default_opts 2000) active_user;
     active_user].
Proof.
  assert (H : forall f os, CallDeleteOne [] [] <> CallDeleteMany f os)
    by discriminate.
  split; [exact H|].
  destruct (single_delete_touches_one default_opts 2000 (CallDeleteOne [] [])
              [active_user; active_user] H)
    as [[T _]|(db1 & d & db2 & _ & _ & _ & T)];
    reflexivity.
Defined.

(** Witness for X6: a caller's [{ new: true, upsert: false }] reaches
    [findOneAndDelete]'s update with [new: false] and [upsert] as given. *)
Lemma delete_options_passthrough_witness :
  obj_get (options (findOneAndDelete default_opts 2000 []
                      [("new", VBool true); ("upsert", VBool false)])) "new"
  = VBool false /\
  obj_get (options (findOneAndDelete default_opts 2000 []
                      [("new", VBool true); ("upsert", VBool false)])) "upsert"
  = VBool false.
Proof.
  destruct (delete_options_passthrough default_opts 2000
              (CallFindOneAndDelete []
                 [("new", VBool true); ("upsert", VBool false)]))
    as (T1 & T2 & _).
  split; [exact T1|]. refine (eq_trans (T2 "upsert" _) eq_refl). discriminate.
Defined.

(** Witness for X17: [deleteMany({})] keeps the sample users' names. *)
Lemma delete_keeps_data_witness :
  "name" <> flagKey default_opts /\
  Forall2 (fun d d' => obj_get d' "name" = obj_get d "name")
    users
    (snd (Store.exec default_opts (deleteMany default_opts 2000 [] []) users)).
Proof.
  assert (H : "name" <> flagKey default_opts) by discriminate.
  split; [exact H|].
  eapply Forall2_impl;
    [|exact (delete_keeps_data default_opts 2000 (CallDeleteMany [] []) users)].
  intros d d' [T _]. apply T; [exact H|discriminate].
Defined.


(** Witness for X20: with no options at all the helpers return. *)
Lemma helpers_return_iff_name_given_witness :
  o_deletedField no_options = None /\
  exists q', active (resolve no_options) (Model_find []) = Ok q'.
Proof.
  split; [reflexivity|].
  destruct (helpers_return_iff_name_given no_options (Model_find [])) as [[_ T] _].
  apply T. now left.
Defined.
